(** * chipmod: two-terminal chip footprints

    A shallow embedding of [scripts/chipmod.py] and the properties of its
    geometry engine, document assembler and idempotent writer.

    Conventions of the embedding.
    - Lengths are Python floats in the source.  The engine, the assembler
      and the writer are embedded over exact rationals ([Q]); a decimal
      literal stands for its decimal value and Python's numeric [==] is
      [Qeq].  An [int] that meets a float (the pad numbers, the 0 ordinate,
      the 90 degree angle) is the rational of the same value.  This
      embedding has the elements that the source builds, their order and the
      lookups that raise; a coordinate can differ from the float of the
      source in its last digits, and the infinities and nan have no
      counterpart.
    - The size of the courtyard does depend on rounding: [ctyd] takes
      [math.ceil] of a float quotient.  Module [Binary64] embeds [ctyd] in
      IEEE 754 binary64 arithmetic, and the properties of the size of the
      courtyard are stated on that embedding.  It embeds [fab] as well, to
      show a sum of floats absorbing a small change of a field.
    - A package configuration is a Python [dict] from field names to values:
      a [gmap string value].  A lookup of a missing key raises [KeyError].
    - A raised exception is [None] in the [option] monad.
    - The footprint document is a nested Python list (tuples print the same
      way): an [sexp]. *)

From Stdlib Require Import ZArith QArith Qround Lqa Lia Ascii String.
From Stdlib Require Floats.SpecFloat.
From stdpp Require Import gmap strings list fin_maps.

Local Open Scope string_scope.

(** ** Python values held by a configuration dictionary *)

Inductive value : Type :=
| VNone
| VStr (s : string)
| VNum (q : Q)
| VPair (a b : Q).

(** [v[0]] followed by arithmetic: only a tuple of numbers survives (a
    number or [None] is not subscriptable, a character of a string cannot be
    divided). *)
Definition item0 (v : value) : option Q :=
  match v with VPair a _ => Some a | _ => None end.

Definition item1 (v : value) : option Q :=
  match v with VPair _ b => Some b | _ => None end.

(** [w, h = v] followed by arithmetic on [w] and [h]. *)
Definition unpack2 (v : value) : option (Q * Q) :=
  match v with VPair a b => Some (a, b) | _ => None end.

(** A value used in arithmetic. *)
Definition as_num (v : value) : option Q :=
  match v with VNum q => Some q | _ => None end.

(** [v == t] for a string literal [t]: a value of another type is unequal
    to every string. *)
Definition str_eqb (v : value) (t : string) : bool :=
  match v with VStr s => bool_decide (s = t) | _ => false end.

(** Python's [==] on two values. *)
Definition value_eqb (v w : value) : bool :=
  match v, w with
  | VNone, VNone => true
  | VStr s, VStr t => bool_decide (s = t)
  | VNum p, VNum q => Qeq_bool p q
  | VPair a b, VPair c d => Qeq_bool a c && Qeq_bool b d
  | _, _ => false
  end.

(** ** Nested-list documents *)

#[local] Unset Elimination Schemes.
Inductive sexp : Type :=
| SNone
| SStr (s : string)
| SNum (q : Q)
| SList (l : list sexp).
#[local] Set Elimination Schemes.

Definition sexp_of_value (v : value) : sexp :=
  match v with
  | VNone => SNone
  | VStr s => SStr s
  | VNum q => SNum q
  | VPair a b => SList [SNum a; SNum b]
  end.

(** Python's [==] on such values: strings by content, numbers by value,
    lists by length and element-wise. *)
Fixpoint sexp_eqb (a b : sexp) {struct a} : bool :=
  match a, b with
  | SNone, SNone => true
  | SStr s, SStr t => bool_decide (s = t)
  | SNum p, SNum q => Qeq_bool p q
  | SList l, SList m =>
      (fix list_eqb (l m : list sexp) {struct l} : bool :=
         match l, m with
         | [], [] => true
         | x :: l', y :: m' => sexp_eqb x y && list_eqb l' m'
         | _, _ => false
         end) l m
  | _, _ => false
  end.

Fixpoint list_sexp_eqb (l m : list sexp) : bool :=
  match l, m with
  | [], [] => true
  | x :: l', y :: m' => sexp_eqb x y && list_sexp_eqb l' m'
  | _, _ => false
  end.

(** Induction on documents, through the lists they nest. *)
Section SexpInduction.

Variable P : sexp → Prop.
Hypothesis HNone : P SNone.
Hypothesis HStr : ∀ s, P (SStr s).
Hypothesis HNum : ∀ q, P (SNum q).
Hypothesis HList : ∀ l, Forall P l → P (SList l).

Fixpoint sexp_nested_ind (d : sexp) : P d :=
  match d with
  | SNone => HNone
  | SStr s => HStr s
  | SNum q => HNum q
  | SList l =>
      HList l ((fix all (l : list sexp) : Forall P l :=
                  match l with
                  | [] => Forall_nil_2 P
                  | x :: l' => Forall_cons_2 P x l' (sexp_nested_ind x) (all l')
                  end) l)
  end.

End SexpInduction.

(** ** The drawing constructors of [kicad_mod] *)

(** Modelled from the spec: [kicad_mod.fp_line], which is not under src/.  A
    line segment is a nested list tagged by its kind that carries its two
    endpoints, its layer and its stroke width. *)
Definition fp_line (start stop : Q * Q) (layer : string) (width : Q) : sexp :=
  SList [SStr "fp_line";
         SList [SStr "start"; SNum start.1; SNum start.2];
         SList [SStr "end"; SNum stop.1; SNum stop.2];
         SList [SStr "layer"; SStr layer];
         SList [SStr "width"; SNum width]].

(** Modelled from the spec: [kicad_mod.fp_text], which is not under src/.  A
    text carries its kind, its content, its position and angle, its layer,
    its font size and its font thickness. *)
Definition fp_text (texttype : string) (text : sexp) (at_ : Q * Q * Q)
    (layer : string) (size : Q * Q) (thickness : Q) : sexp :=
  SList [SStr "fp_text"; SStr texttype; text;
         SList [SStr "at"; SNum at_.1.1; SNum at_.1.2; SNum at_.2];
         SList [SStr "layer"; SStr layer];
         SList [SStr "effects";
                SList [SStr "font";
                       SList [SStr "size"; SNum size.1; SNum size.2];
                       SList [SStr "thickness"; SNum thickness]]]].

(** Modelled from the spec: [kicad_mod.pad], which is not under src/.  A pad
    carries its number, its type, its shape, its centre, its size and its
    layers. *)
Definition pad (num : Z) (padtype shape : string) (at_ : Q * Q)
    (size : Q * Q) (layers : list string) : sexp :=
  SList [SStr "pad"; SNum (inject_Z num); SStr padtype; SStr shape;
         SList [SStr "at"; SNum at_.1; SNum at_.2];
         SList [SStr "size"; SNum size.1; SNum size.2];
         SList (SStr "layers" :: (SStr <$> layers))].

(** Modelled from the spec: [kicad_mod.draw_square], which is not under
    src/.  The rectangle of the given width and height about [centre]: its
    four corners (north is the negative Y direction of the board frame) and
    the four segments that join them in turn. *)
Definition draw_square (width height : Q) (centre : Q * Q) (layer : string)
    (thickness : Q) : (Q * Q) * (Q * Q) * (Q * Q) * (Q * Q) * list sexp :=
  let nw := (centre.1 - width / 2, centre.2 - height / 2)%Q in
  let ne := (centre.1 + width / 2, centre.2 - height / 2)%Q in
  let se := (centre.1 + width / 2, centre.2 + height / 2)%Q in
  let sw := (centre.1 - width / 2, centre.2 + height / 2)%Q in
  (nw, ne, se, sw,
   [fp_line nw ne layer thickness;
    fp_line ne se layer thickness;
    fp_line se sw layer thickness;
    fp_line sw nw layer thickness]).

(** ** Constants *)

Definition ctyd_gap : Q := 0.25.
Definition ctyd_grid : Q := 0.05.
Definition ctyd_width : Q := 0.01.
Definition silk_pad_igap : Q := 0.2.
Definition silk_pad_egap : Q := 0.2.
Definition silk_width : Q := 0.15.
Definition fab_width : Q := 0.01.
Definition font_size : Q * Q := (1.0, 1.0)%Q.
Definition font_thickness : Q := 0.15.
Definition font_halfheight : Q := 0.7.

(** ** The geometry engine *)

Section Engine.

Local Open Scope Q_scope.

Implicit Types conf : gmap string value.

Definition refs conf : option (list sexp) :=
  p ← conf !! "pitch" ≫= as_num;
  pw ← conf !! "pad_shape" ≫= item0;
  let x := p / 2 + pw / 2 + ctyd_gap + font_halfheight in
  let out := [fp_text "reference" (SStr "REF**") (- x, 0, 90) "F.Fab"
                font_size font_thickness] in
  name ← conf !! "name";
  Some (out ++ [fp_text "value" (sexp_of_value name) (x, 0, 90) "F.Fab"
                  font_size font_thickness])%list.

Definition fab conf : option (list sexp) :=
  '(w, h) ← conf !! "chip_shape" ≫= unpack2;
  t ← conf !! "terminal" ≫= as_num;
  let '(nw, ne, se, sw, sq) := draw_square w h (0, 0) "F.Fab" fab_width in
  let out := ([] ++ sq)%list in
  let out := (out ++ [fp_line (nw.1 + t, - h / 2) (nw.1 + t, h / 2)
                        "F.Fab" fab_width])%list in
  let out := (out ++ [fp_line (ne.1 - t, - h / 2) (ne.1 - t, h / 2)
                        "F.Fab" fab_width])%list in
  Some out.

Definition internal_silk conf : option (list sexp) :=
  p ← conf !! "pitch" ≫= as_num;
  pw ← conf !! "pad_shape" ≫= item0;
  let w := p - pw - 2 * silk_pad_igap in
  ch ← conf !! "chip_shape" ≫= item1;
  let h := ch - silk_width in
  let '(_, _, _, _, sq) := draw_square w h (0, 0) "F.SilkS" silk_width in
  Some sq.

Definition external_silk conf : option (list sexp) := Some [].

Definition triangle_silk conf : option (list sexp) :=
  p ← conf !! "pitch" ≫= as_num;
  pw ← conf !! "pad_shape" ≫= item0;
  let w := p - pw - 2 * silk_pad_igap in
  ch ← conf !! "chip_shape" ≫= item1;
  let h := ch - silk_width in
  Some [fp_line (- w / 2, 0) (w / 2, - h / 2) "F.SilkS" silk_width;
        fp_line (- w / 2, 0) (w / 2, h / 2) "F.SilkS" silk_width;
        fp_line (w / 2, - h / 2) (w / 2, h / 2) "F.SilkS" silk_width].

Definition pin1_silk conf : option (list sexp) := Some [].

(** [conf.get('silk', 'internal')]: the default only when the key is
    absent. *)
Definition silk conf : option (list sexp) :=
  let s := default (VStr "internal") (conf !! "silk") in
  if str_eqb s "internal" then internal_silk conf
  else if str_eqb s "external" then external_silk conf
  else if str_eqb s "triangle" then triangle_silk conf
  else if str_eqb s "pin1" then pin1_silk conf
  else Some [].

(** Over exact rationals; [Binary64.ctyd] below is the same computation in
    the floats of the source. *)
Definition ctyd conf : option (list sexp) :=
  pw ← conf !! "pad_shape" ≫= item0;
  p ← conf !! "pitch" ≫= as_num;
  let width := pw + p + 2 * ctyd_gap in
  ph ← conf !! "pad_shape" ≫= item1;
  let height := ph + 2 * ctyd_gap in
  let grid := 2 * ctyd_grid in
  let width := grid * inject_Z (Qceiling (width / (2 * ctyd_grid))) in
  let height := grid * inject_Z (Qceiling (height / (2 * ctyd_grid))) in
  let '(_, _, _, _, sq) := draw_square width height (0, 0) "F.CrtYd" ctyd_width in
  Some sq.

Definition pads conf : option (list sexp) :=
  p ← conf !! "pitch" ≫= as_num;
  let x := p / 2 in
  let layers := ["F.Cu"; "F.Mask"; "F.Paste"]%string in
  size ← conf !! "pad_shape" ≫= unpack2;
  Some ([pad 1 "smd" "rect" (- x, 0) size layers] ++
        [pad 2 "smd" "rect" (x, 0) size layers])%list.

End Engine.

(** ** The package registry *)

(** The dictionaries of the literal table [config].  An entry without a
    ["silk"] key has none in its dictionary. *)
Definition conf_0201 : gmap string value :=
  list_to_map [("pad_shape", VPair 0.46 0.42); ("pitch", VNum 0.66);
               ("chip_shape", VPair 0.6 0.3); ("terminal", VNum 0.15);
               ("silk", VNone)].

Definition conf_0402 : gmap string value :=
  list_to_map [("pad_shape", VPair 0.62 0.62); ("pitch", VNum 0.90);
               ("chip_shape", VPair 1.00 0.50); ("terminal", VNum 0.30);
               ("silk", VNone)].

Definition conf_0603 : gmap string value :=
  list_to_map [("pad_shape", VPair 0.95 1.00); ("pitch", VNum 1.60);
               ("chip_shape", VPair 1.60 0.80); ("terminal", VNum 0.35)].

Definition conf_0603_LED : gmap string value :=
  list_to_map [("pad_shape", VPair 0.95 1.00); ("pitch", VNum 1.60);
               ("chip_shape", VPair 1.60 0.80); ("terminal", VNum 0.25);
               ("silk", VStr "triangle")].

Definition conf_0805 : gmap string value :=
  list_to_map [("pad_shape", VPair 1.15 1.45); ("pitch", VNum 1.80);
               ("chip_shape", VPair 2.00 1.25); ("terminal", VNum 0.50)].

Definition conf_1206 : gmap string value :=
  list_to_map [("pad_shape", VPair 1.15 1.80); ("pitch", VNum 3.00);
               ("chip_shape", VPair 3.20 1.60); ("terminal", VNum 0.60)].

Definition conf_0402_L : gmap string value :=
  list_to_map [("pad_shape", VPair 0.52 0.52); ("pitch", VNum 0.80);
               ("chip_shape", VPair 1.00 0.50); ("terminal", VNum 0.30);
               ("silk", VNone)].

Definition conf_0603_L : gmap string value :=
  list_to_map [("pad_shape", VPair 0.75 0.90); ("pitch", VNum 1.40);
               ("chip_shape", VPair 1.60 0.80); ("terminal", VNum 0.35)].

(** The table [config], in source order. *)
Definition config : list (string * gmap string value) :=
  [("0201", conf_0201); ("0402", conf_0402); ("0603", conf_0603);
   ("0603-LED", conf_0603_LED); ("0805", conf_0805); ("1206", conf_1206);
   ("0402-L", conf_0402_L); ("0603-L", conf_0603_L)].

(** ** The document assembler *)

(** [int(t)]: truncation towards zero. *)
Definition py_int (t : Q) : Z := Z.quot (Qnum t) (Z.pos (Qden t)).

Definition hex_digit (d : Z) : ascii :=
  default "0"%char (list_ascii_of_string "0123456789ABCDEF" !! Z.to_nat d).

Fixpoint hex_digits (fuel : nat) (n : Z) (acc : string) : string :=
  match fuel with
  | O => acc
  | S fuel' =>
      let acc' := String (hex_digit (n mod 16)) acc in
      if (n / 16 =? 0)%Z then acc' else hex_digits fuel' (n / 16) acc'
  end.

(** [format(n, 'X')]: upper-case hexadecimal, with a sign for a negative
    number. *)
Definition format_X (n : Z) : string :=
  let m := Z.abs n in
  let body := hex_digits (S (Z.to_nat (Z.log2 m))) m "" in
  if (n <? 0)%Z then String "-" body else body.

(** The list that [footprint] builds and hands to [sexp_generate]; [now] is
    the value of [time.time()]. *)
Definition footprint_sexp (now : Q) (conf : gmap string value) : option sexp :=
  let tedit := format_X (py_int now) in
  name ← conf !! "name";
  let sexp := [SStr "module"; sexp_of_value name;
               SList [SStr "layer"; SStr "F.Cu"];
               SList [SStr "tedit"; SStr tedit]] in
  r ← refs conf; let sexp := (sexp ++ r)%list in
  f ← fab conf; let sexp := (sexp ++ f)%list in
  s ← silk conf; let sexp := (sexp ++ s)%list in
  c ← ctyd conf; let sexp := (sexp ++ c)%list in
  p ← pads conf; let sexp := (sexp ++ p)%list in
  Some (SList sexp).

(** ** The idempotent writer *)

(** [for n in d]: the elements of a list, the characters of a string. *)
Definition py_iter (d : sexp) : option (list sexp) :=
  match d with
  | SList l => Some l
  | SStr s => Some ((λ c, SStr (String c "")) <$> list_ascii_of_string s)
  | _ => None
  end.

(** [n[0]]: [IndexError] on an empty string or list, [TypeError] on a number
    or [None]. *)
Definition py_first (n : sexp) : option sexp :=
  match n with
  | SStr (String c _) => Some (SStr (String c ""))
  | SList (x :: _) => Some x
  | _ => None
  end.

(** [[n for n in l if n[0] != "tedit"]] *)
Fixpoint drop_tedit (l : list sexp) : option (list sexp) :=
  match l with
  | [] => Some []
  | n :: l' =>
      h ← py_first n;
      rest ← drop_tedit l';
      Some (if sexp_eqb h (SStr "tedit") then rest else n :: rest)
  end.

Definition strip_tedit (d : sexp) : option (list sexp) :=
  py_iter d ≫= drop_tedit.

(** What [strip_tedit] leaves of the document generated from [conf], at any
    time. *)
Definition stripped (conf : gmap string value) : option (list sexp) :=
  name ← conf !! "name";
  r ← refs conf; f ← fab conf; s ← silk conf; c ← ctyd conf; p ← pads conf;
  h ← drop_tedit [SStr "module"; sexp_of_value name;
                  SList [SStr "layer"; SStr "F.Cu"]];
  Some (h ++ r ++ f ++ s ++ c ++ p)%list.

(** [os.path.join(a, b)] on a POSIX system. *)
Definition path_join (a b : string) : string :=
  match b with
  | String "/" _ => b
  | _ =>
      if bool_decide (a = "") then b
      else if bool_decide (last (list_ascii_of_string a) = Some "/"%char)
           then a ++ b
           else a ++ "/" ++ b
  end.

Definition target (prettypath name : string) : string :=
  path_join prettypath (name ++ ".kicad_mod").

Section Writer.

(** The text of a file, and the serializer and parser of module [sexp],
    which is not under src/: they are parameters of the writer. *)
Context {text : Type}.
Variable sexp_generate : sexp → text.
Variable sexp_parse : text → option sexp.

Definition footprint (now : Q) (conf : gmap string value) : option text :=
  sexp_generate <$> footprint_sexp now conf.

(** Whether an identical part already exists in [old]. *)
Definition identical (fp old : text) : option bool :=
  old' ← sexp_parse old ≫= strip_tedit;
  new ← sexp_parse fp ≫= strip_tedit;
  Some (list_sexp_eqb new old').

(** The loop of [main] over [items], the pairs of [config.items()] that
    remain.  The [i]-th footprint of the run reads the clock as [clock i].
    The directory [prettypath] exists and is writable; [files] maps the paths
    of the regular files to their contents.  The result is the visited
    entries as the loop leaves them in the registry (the dictionary [conf] is
    the registry's own object), the files, and the paths written, in order. *)
Fixpoint main_loop (clock : nat → Q) (i : nat) (prettypath : string)
    (items : list (string * gmap string value)) (files : gmap string text)
  : option (list (string * gmap string value) * gmap string text * list string) :=
  match items with
  | [] => Some ([], files, [])
  | (name, conf) :: rest =>
      let conf := <["name" := VStr name]> conf in
      fp ← footprint (clock i) conf;
      let path := target prettypath name in
      skip ← match files !! path with
              | Some old => identical fp old
              | None => Some false
              end;
      let files' := if skip : bool then files else <[path := fp]> files in
      '(rest', files'', w) ← main_loop clock (S i) prettypath rest files';
      Some ((name, conf) :: rest', files'', if skip then w else path :: w)
  end.

(** The file of package [name] holds a document that equals, tedit apart,
    what the parser reads back of the one generated from [conf]; [read] is
    what parsing makes of a serialized element. *)
Definition settled (read : sexp → sexp) (files : gmap string text)
    (prettypath name : string) (conf : gmap string value) : Prop :=
  ∃ old o n,
    files !! target prettypath name = Some old ∧
    sexp_parse old ≫= strip_tedit = Some o ∧
    stripped conf = Some n ∧
    list_sexp_eqb (read <$> n) o = true.

Definition main (clock : nat → Q) (prettypath : string)
    (registry : list (string * gmap string value)) (files : gmap string text) :=
  main_loop clock 0 prettypath registry files.

End Writer.

(** * The courtyard and the fabrication drawing in binary64

    Python's floats are IEEE 754 binary64 numbers: precision 53, maximal
    exponent 1024, rounding to nearest, ties to even.  The operations are
    those of [SpecFloat]. *)

Module Binary64.

Definition float : Type := SpecFloat.spec_float.

Definition add : float → float → float := SpecFloat.SFadd 53 1024.
Definition sub : float → float → float := SpecFloat.SFsub 53 1024.
Definition mul : float → float → float := SpecFloat.SFmul 53 1024.
Definition div : float → float → float := SpecFloat.SFdiv 53 1024.
Definition opp : float → float := SpecFloat.SFopp.

(** [float(n)] for an [int]. *)
Definition of_Z (n : Z) : float := SpecFloat.binary_normalize 53 1024 n 0 false.

(** The float that the decimal literal [m]e-[k] denotes: the quotient of
    [m] by [10^k], rounded once. *)
Definition dec (m : positive) (k : nat) : float :=
  let '(q, e, l) :=
    SpecFloat.SFdiv_core_binary 53 1024 (Z.pos m) 0 (10 ^ Z.of_nat k) 0 in
  SpecFloat.binary_round_aux 53 1024 false q e l.

(** The number that a finite float stands for. *)
Definition to_Q (x : float) : option Q :=
  match x with
  | SpecFloat.S754_zero _ => Some 0%Q
  | SpecFloat.S754_finite s m e =>
      Some (inject_Z (SpecFloat.cond_Zopp s (Z.pos m)) * 2 ^ e)%Q
  | _ => None
  end.

(** [math.ceil]: the least integer that is not below the number; it raises
    [OverflowError] on an infinity and [ValueError] on a nan. *)
Definition ceil (x : float) : option Z := Qceiling <$> to_Q x.

(** The values of a configuration dictionary; an [int] used as a length is
    the float of the same value. *)
Inductive value : Type :=
| VNone
| VStr (s : string)
| VNum (x : float)
| VPair (a b : float).

Definition item0 (v : value) : option float :=
  match v with VPair a _ => Some a | _ => None end.

Definition item1 (v : value) : option float :=
  match v with VPair _ b => Some b | _ => None end.

Definition unpack2 (v : value) : option (float * float) :=
  match v with VPair a b => Some (a, b) | _ => None end.

Definition as_num (v : value) : option float :=
  match v with VNum x => Some x | _ => None end.

#[local] Unset Elimination Schemes.
Inductive sexp : Type :=
| SStr (s : string)
| SNum (x : float)
| SList (l : list sexp).
#[local] Set Elimination Schemes.

(** Modelled from the spec: [kicad_mod.fp_line], which is not under src/;
    as above, with floats for coordinates. *)
Definition fp_line (start stop : float * float) (layer : string)
    (width : float) : sexp :=
  SList [SStr "fp_line";
         SList [SStr "start"; SNum start.1; SNum start.2];
         SList [SStr "end"; SNum stop.1; SNum stop.2];
         SList [SStr "layer"; SStr layer];
         SList [SStr "width"; SNum width]].

(** Modelled from the spec: [kicad_mod.draw_square], which is not under
    src/; as above, in float arithmetic. *)
Definition draw_square (width height : float) (centre : float * float)
    (layer : string) (thickness : float)
  : (float * float) * (float * float) * (float * float) * (float * float)
    * list sexp :=
  let nw := (sub centre.1 (div width (of_Z 2)),
             sub centre.2 (div height (of_Z 2))) in
  let ne := (add centre.1 (div width (of_Z 2)),
             sub centre.2 (div height (of_Z 2))) in
  let se := (add centre.1 (div width (of_Z 2)),
             add centre.2 (div height (of_Z 2))) in
  let sw := (sub centre.1 (div width (of_Z 2)),
             add centre.2 (div height (of_Z 2))) in
  (nw, ne, se, sw,
   [fp_line nw ne layer thickness;
    fp_line ne se layer thickness;
    fp_line se sw layer thickness;
    fp_line sw nw layer thickness]).

Definition ctyd_gap : float := dec 25 2.
Definition ctyd_grid : float := dec 5 2.
Definition ctyd_width : float := dec 1 2.
Definition fab_width : float := dec 1 2.

Definition fab (conf : gmap string value) : option (list sexp) :=
  '(w, h) ← conf !! "chip_shape" ≫= unpack2;
  t ← conf !! "terminal" ≫= as_num;
  let '(nw, ne, se, sw, sq) :=
    draw_square w h (of_Z 0, of_Z 0) "F.Fab" fab_width in
  let out := ([] ++ sq)%list in
  let out := (out ++ [fp_line (add nw.1 t, div (opp h) (of_Z 2))
                        (add nw.1 t, div h (of_Z 2)) "F.Fab" fab_width])%list in
  let out := (out ++ [fp_line (sub ne.1 t, div (opp h) (of_Z 2))
                        (sub ne.1 t, div h (of_Z 2)) "F.Fab" fab_width])%list in
  Some out.

Definition ctyd (conf : gmap string value) : option (list sexp) :=
  pw ← conf !! "pad_shape" ≫= item0;
  p ← conf !! "pitch" ≫= as_num;
  let width := add (add pw p) (mul (of_Z 2) ctyd_gap) in
  ph ← conf !! "pad_shape" ≫= item1;
  let height := add ph (mul (of_Z 2) ctyd_gap) in
  let grid := mul (of_Z 2) ctyd_grid in
  n ← ceil (div width (mul (of_Z 2) ctyd_grid));
  let width := mul grid (of_Z n) in
  m ← ceil (div height (mul (of_Z 2) ctyd_grid));
  let height := mul grid (of_Z m) in
  let '(_, _, _, _, sq) :=
    draw_square width height (of_Z 0, of_Z 0) "F.CrtYd" ctyd_width in
  Some sq.

(** The entry "0402" of the table, and the same package with a pad of
    height 0.40000000000000013. *)
Definition conf_0402 : gmap string value :=
  list_to_map [("pad_shape", VPair (dec 62 2) (dec 62 2));
               ("pitch", VNum (dec 90 2));
               ("chip_shape", VPair (dec 100 2) (dec 50 2));
               ("terminal", VNum (dec 30 2));
               ("silk", VNone)].

Definition conf_0402_low : gmap string value :=
  <["pad_shape" := VPair (dec 62 2) (dec 40000000000000013 17)]> conf_0402.

(** The entry "1206" of the table. *)
Definition conf_1206 : gmap string value :=
  list_to_map [("pad_shape", VPair (dec 115 2) (dec 180 2));
               ("pitch", VNum (dec 300 2));
               ("chip_shape", VPair (dec 320 2) (dec 160 2));
               ("terminal", VNum (dec 60 2))].

End Binary64.

(** ** Vocabulary of the statements *)

(** The fields of a package specification, and the geometric ones. *)
Definition spec_fields : list string :=
  ["name"; "pad_shape"; "pitch"; "chip_shape"; "terminal"; "silk"].

Definition geometric_fields : list string :=
  ["pad_shape"; "pitch"; "chip_shape"; "terminal"].

(** Two dictionaries hold the same specification. *)
Definition same_spec (conf1 conf2 : gmap string value) : Prop :=
  ∀ k, k ∈ spec_fields → conf1 !! k = conf2 !! k.

(** Field [k] has values in both dictionaries, and they are unequal. *)
Definition field_changed (k : string) (conf1 conf2 : gmap string value) : Prop :=
  ∃ v1 v2, conf1 !! k = Some v1 ∧ conf2 !! k = Some v2 ∧ value_eqb v1 v2 = false.

(** The tedit element of a document generated at time [now]. *)
Definition tedit_element (now : Q) : sexp :=
  SList [SStr "tedit"; SStr (format_X (py_int now))].

(** The element survives the filter [n[0] != "tedit"]. *)
Definition kept (n : sexp) : Prop :=
  ∃ h, py_first n = Some h ∧ sexp_eqb h (SStr "tedit") = false.

(** The registry as the loop of [main] leaves it. *)
Definition named (items : list (string * gmap string value))
  : list (string * gmap string value) :=
  (λ e, (e.1, <["name" := VStr e.1]> e.2)) <$> items.

(** A stand-in for the serializer of module [sexp], which is not under
    src/: it prints every number with four decimals, rounding half up.  The
    parser that goes with it reads a text back as it is. *)
Definition round4 (q : Q) : Q := Qfloor (q * 10000 + (1 # 2)) # 10000.

Fixpoint print4 (d : sexp) : sexp :=
  match d with
  | SNum q => SNum (round4 q)
  | SList l => SList (print4 <$> l)
  | _ => d
  end.

(** Reading an upper-case hexadecimal numeral without sign or prefix, most
    significant digit first. *)
Definition hex_digit_value (c : ascii) : option Z :=
  (λ r, Z.of_nat r.1)
    <$> list_find (λ d, d = c) (list_ascii_of_string "0123456789ABCDEF").

Fixpoint hex_value_from (acc : Z) (s : string) : option Z :=
  match s with
  | EmptyString => Some acc
  | String c s' => d ← hex_digit_value c; hex_value_from (16 * acc + d) s'
  end.

Definition hex_value (s : string) : option Z :=
  match s with
  | EmptyString => None
  | _ => hex_value_from 0 s
  end.

(** * Properties of the geometry engine *)

Section EngineFacts.

Local Open Scope Q_scope.

Implicit Types conf : gmap string value.

Lemma Qhalf (x : Q) : x / 2 == x * (1 # 2).
Proof. field. Qed.

(** C3: exactly two surface-mount rectangular pads, centred at (-pitch/2, 0)
    and (+pitch/2, 0), each of size pad_shape, on the copper, mask and paste
    layers; pad 1 is the one at -pitch/2, which lies to the left of pad 2
    for a positive pitch. *)
Theorem pads_placement conf p w h :
  conf !! "pitch" = Some (VNum p) →
  conf !! "pad_shape" = Some (VPair w h) →
  pads conf
  = Some [pad 1 "smd" "rect" (- (p / 2), 0) (w, h)
            ["F.Cu"; "F.Mask"; "F.Paste"]%string;
          pad 2 "smd" "rect" (p / 2, 0) (w, h)
            ["F.Cu"; "F.Mask"; "F.Paste"]%string]
  ∧ (0 < p → - (p / 2) < p / 2).
Proof.
  intros Hp Hs. split.
  - unfold pads. rewrite Hp, Hs. reflexivity.
  - intros Hpos. rewrite Qhalf. lra.
Qed.

Lemma pads_placement_witness :
  pads conf_0603
  = Some [pad 1 "smd" "rect" (- (1.60 / 2), 0) (0.95, 1.00)
            ["F.Cu"; "F.Mask"; "F.Paste"]%string;
          pad 2 "smd" "rect" (1.60 / 2, 0) (0.95, 1.00)
            ["F.Cu"; "F.Mask"; "F.Paste"]%string]
  ∧ (0 < 1.60 → - (1.60 / 2) < 1.60 / 2).
Proof. apply (pads_placement conf_0603 1.60 0.95 1.00); reflexivity. Defined.

(** C7: exactly two labels on the fabrication layer, at (-x, 0) and (+x, 0)
    with x = pitch/2 + pad width/2 + courtyard clearance + font half-height,
    both at 90 degrees; the left one is the reference "REF**", the right one
    carries the package name. *)
Theorem refs_labels conf p w h name :
  conf !! "pitch" = Some (VNum p) →
  conf !! "pad_shape" = Some (VPair w h) →
  conf !! "name" = Some (VStr name) →
  let x := p / 2 + w / 2 + ctyd_gap + font_halfheight in
  refs conf
  = Some [fp_text "reference" (SStr "REF**") (- x, 0, 90) "F.Fab"
            font_size font_thickness;
          fp_text "value" (SStr name) (x, 0, 90) "F.Fab"
            font_size font_thickness].
Proof.
  intros Hp Hs Hn x. unfold refs. rewrite Hp, Hs, Hn. reflexivity.
Qed.

Lemma refs_labels_witness :
  let x := 0.90 / 2 + 0.62 / 2 + ctyd_gap + font_halfheight in
  refs (<["name" := VStr "0402"]> conf_0402)
  = Some [fp_text "reference" (SStr "REF**") (- x, 0, 90) "F.Fab"
            font_size font_thickness;
          fp_text "value" (SStr "0402") (x, 0, 90) "F.Fab"
            font_size font_thickness].
Proof.
  apply (refs_labels (<["name" := VStr "0402"]> conf_0402) 0.90 0.62 0.62 "0402");
    reflexivity.
Defined.

(** C5: with silk = "triangle" the silkscreen is exactly three segments that
    join the apex (-w/2, 0) and the two ends (w/2, -h/2) and (w/2, +h/2) of
    the base pairwise; w and h are the width pitch - pad width - 2 clearances
    and the height chip height - one stroke width of the "internal"
    rectangle, whose left edge has the apex at its centre and whose right
    edge is the base. *)
Theorem triangle_silk_closed conf p pw ph cw ch :
  conf !! "silk" = Some (VStr "triangle") →
  conf !! "pitch" = Some (VNum p) →
  conf !! "pad_shape" = Some (VPair pw ph) →
  conf !! "chip_shape" = Some (VPair cw ch) →
  let w := p - pw - 2 * silk_pad_igap in
  let h := ch - silk_width in
  let apex := (- w / 2, 0) in
  let top := (w / 2, - h / 2) in
  let bottom := (w / 2, h / 2) in
  silk conf = Some [fp_line apex top "F.SilkS" silk_width;
                    fp_line apex bottom "F.SilkS" silk_width;
                    fp_line top bottom "F.SilkS" silk_width] ∧
  internal_silk conf
  = Some (draw_square w h (0, 0) "F.SilkS" silk_width).2 ∧
  let '(nw, ne, se, sw, _) := draw_square w h (0, 0) "F.SilkS" silk_width in
  (apex.1 == nw.1 ∧ apex.1 == sw.1 ∧ apex.2 == (nw.2 + sw.2) / 2) ∧
  (top.1 == ne.1 ∧ top.2 == ne.2) ∧
  (bottom.1 == se.1 ∧ bottom.2 == se.2).
Proof.
  intros Hk Hp Hs Hc w h apex top bottom. split; [|split].
  - unfold silk. rewrite Hk. simpl.
    unfold triangle_silk. rewrite Hp, Hs, Hc. reflexivity.
  - unfold internal_silk. rewrite Hp, Hs, Hc. reflexivity.
  - subst apex top bottom. simpl.
    generalize w h. intros a b. repeat split; field.
Qed.

Lemma triangle_silk_closed_witness :
  let w := 1.60 - 0.95 - 2 * silk_pad_igap in
  let h := 0.80 - silk_width in
  let apex := (- w / 2, 0) in
  let top := (w / 2, - h / 2) in
  let bottom := (w / 2, h / 2) in
  silk conf_0603_LED = Some [fp_line apex top "F.SilkS" silk_width;
                             fp_line apex bottom "F.SilkS" silk_width;
                             fp_line top bottom "F.SilkS" silk_width] ∧
  internal_silk conf_0603_LED
  = Some (draw_square w h (0, 0) "F.SilkS" silk_width).2 ∧
  let '(nw, ne, se, sw, _) := draw_square w h (0, 0) "F.SilkS" silk_width in
  (apex.1 == nw.1 ∧ apex.1 == sw.1 ∧ apex.2 == (nw.2 + sw.2) / 2) ∧
  (top.1 == ne.1 ∧ top.2 == ne.2) ∧
  (bottom.1 == se.1 ∧ bottom.2 == se.2).
Proof.
  apply (triangle_silk_closed conf_0603_LED 1.60 0.95 1.00 1.60 0.80);
    reflexivity.
Defined.

(** C4: the dispatcher selects by the "silk" field: "internal" gives the
    internal rectangle, "triangle" the triangle.  Absent, the field behaves
    as "internal", and the output is the four segments of the internal
    rectangle; "external" and "pin1" give empty output; a value that matches
    no known variant, an explicit None among them, gives empty output. *)
Theorem silk_dispatch conf :
  (conf !! "silk" = Some (VStr "internal") → silk conf = internal_silk conf) ∧
  (conf !! "silk" = Some (VStr "triangle") → silk conf = triangle_silk conf) ∧
  (conf !! "silk" = None →
   silk conf = silk (<["silk" := VStr "internal"]> conf) ∧
   silk conf = internal_silk conf) ∧
  (conf !! "silk" = None ∨ conf !! "silk" = Some (VStr "internal") →
   ∀ p pw ph cw ch,
     conf !! "pitch" = Some (VNum p) →
     conf !! "pad_shape" = Some (VPair pw ph) →
     conf !! "chip_shape" = Some (VPair cw ch) →
     ∃ a b c d,
       silk conf = Some [a; b; c; d] ∧
       [a; b; c; d]
       = (draw_square (p - pw - 2 * silk_pad_igap) (ch - silk_width) (0, 0)
            "F.SilkS" silk_width).2) ∧
  (conf !! "silk" = Some (VStr "external") → silk conf = Some []) ∧
  (conf !! "silk" = Some (VStr "pin1") → silk conf = Some []) ∧
  (conf !! "silk" = Some VNone → silk conf = Some []) ∧
  (∀ v, conf !! "silk" = Some v →
        v ∉ [VStr "internal"; VStr "external"; VStr "triangle"; VStr "pin1"] →
        silk conf = Some []).
Proof.
  assert (Hint : conf !! "silk" = None ∨ conf !! "silk" = Some (VStr "internal") →
                 silk conf = internal_silk conf).
  { intros [Hk|Hk]; unfold silk; rewrite Hk; reflexivity. }
  split; [by auto|]. split; [|split; [|split; [|split; [|split; [|split]]]]].
  - intros Hk. unfold silk. rewrite Hk. reflexivity.
  - intros Hk. split; [|by auto].
    rewrite Hint by auto. unfold silk. rewrite lookup_insert_eq. simpl.
    unfold internal_silk. by rewrite !lookup_insert_ne.
  - intros Hk p pw ph cw ch Hp Hs Hc. rewrite (Hint Hk).
    unfold internal_silk. rewrite Hp, Hs, Hc. simpl.
    eexists _, _, _, _. split; reflexivity.
  - intros Hk. unfold silk. rewrite Hk. reflexivity.
  - intros Hk. unfold silk. rewrite Hk. reflexivity.
  - intros Hk. unfold silk. rewrite Hk. reflexivity.
  - intros v Hk Hv. unfold silk. rewrite Hk. simpl.
    destruct v as [|s|q|a b]; try reflexivity.
    simpl. repeat case_bool_decide; subst; try reflexivity;
      exfalso; apply Hv; set_solver.
Qed.

Lemma silk_dispatch_witness :
  (∃ a b c d,
     silk conf_0603 = Some [a; b; c; d] ∧
     [a; b; c; d]
     = (draw_square (1.60 - 0.95 - 2 * silk_pad_igap) (0.80 - silk_width)
          (0, 0) "F.SilkS" silk_width).2) ∧
  (∃ a b c d,
     silk (<["silk" := VStr "internal"]> conf_0402) = Some [a; b; c; d] ∧
     [a; b; c; d]
     = (draw_square (0.90 - 0.62 - 2 * silk_pad_igap) (0.50 - silk_width)
          (0, 0) "F.SilkS" silk_width).2) ∧
  silk conf_0603_LED = triangle_silk conf_0603_LED ∧
  silk conf_0402 = Some [] ∧
  silk (<["silk" := VStr "oval"]> conf_0402) = Some [].
Proof.
  split; [|split; [|split; [|split]]].
  - apply (proj1 (proj2 (proj2 (proj2 (silk_dispatch conf_0603))))
             ltac:(left; reflexivity)) with (ph := 1.00) (cw := 1.60);
      reflexivity.
  - apply (proj1 (proj2 (proj2 (proj2
             (silk_dispatch (<["silk" := VStr "internal"]> conf_0402)))))
             ltac:(right; reflexivity)) with (ph := 0.62) (cw := 1.00);
      reflexivity.
  - apply (proj1 (proj2 (silk_dispatch conf_0603_LED))). reflexivity.
  - apply (proj1 (proj2 (proj2 (proj2 (proj2 (proj2 (proj2
             (silk_dispatch conf_0402)))))))).
    reflexivity.
  - apply (proj2 (proj2 (proj2 (proj2 (proj2 (proj2 (proj2
             (silk_dispatch (<["silk" := VStr "oval"]> conf_0402))))))))
             (VStr "oval")); [reflexivity|].
    intros Hin. repeat (apply elem_of_cons in Hin as [Hin|Hin]; [discriminate|]).
    by apply elem_of_nil in Hin.
Defined.

(** C6: the fabrication drawing is the rectangle of chip_shape about the
    origin followed by two vertical marks, each inset by the terminal width
    from a short edge.  For the "0402" entry the pads are centred at
    x = -0.45 and +0.45, the rectangle spans -0.50..0.50 in X and
    -0.25..0.25 in Y, the marks lie at x = -0.20 and +0.20, and the
    silkscreen is empty. *)
Theorem fab_outline :
  (∀ conf w h t,
     conf !! "chip_shape" = Some (VPair w h) →
     conf !! "terminal" = Some (VNum t) →
     fab conf
     = Some ((draw_square w h (0, 0) "F.Fab" fab_width).2 ++
             [fp_line (0 - w / 2 + t, - h / 2) (0 - w / 2 + t, h / 2)
                "F.Fab" fab_width;
              fp_line (0 + w / 2 - t, - h / 2) (0 + w / 2 - t, h / 2)
                "F.Fab" fab_width])%list) ∧
  (∃ ps, pads conf_0402 = Some ps ∧
         list_sexp_eqb ps
           [pad 1 "smd" "rect" (-0.45, 0) (0.62, 0.62)
              ["F.Cu"; "F.Mask"; "F.Paste"]%string;
            pad 2 "smd" "rect" (0.45, 0) (0.62, 0.62)
              ["F.Cu"; "F.Mask"; "F.Paste"]%string] = true) ∧
  (∃ fs, fab conf_0402 = Some fs ∧
         list_sexp_eqb fs
           [fp_line (-0.50, -0.25) (0.50, -0.25) "F.Fab" fab_width;
            fp_line (0.50, -0.25) (0.50, 0.25) "F.Fab" fab_width;
            fp_line (0.50, 0.25) (-0.50, 0.25) "F.Fab" fab_width;
            fp_line (-0.50, 0.25) (-0.50, -0.25) "F.Fab" fab_width;
            fp_line (-0.20, -0.25) (-0.20, 0.25) "F.Fab" fab_width;
            fp_line (0.20, -0.25) (0.20, 0.25) "F.Fab" fab_width] = true) ∧
  silk conf_0402 = Some [].
Proof.
  split; [|split; [|split]].
  - intros conf w h t Hc Ht. unfold fab. rewrite Hc, Ht. reflexivity.
  - eexists. split; [reflexivity|]. vm_compute. reflexivity.
  - eexists. split; [reflexivity|]. vm_compute. reflexivity.
  - reflexivity.
Qed.

Lemma fab_outline_witness :
  fab conf_1206
  = Some ((draw_square 3.20 1.60 (0, 0) "F.Fab" fab_width).2 ++
          [fp_line (0 - 3.20 / 2 + 0.60, - 1.60 / 2) (0 - 3.20 / 2 + 0.60, 1.60 / 2)
             "F.Fab" fab_width;
           fp_line (0 + 3.20 / 2 - 0.60, - 1.60 / 2) (0 + 3.20 / 2 - 0.60, 1.60 / 2)
             "F.Fab" fab_width])%list.
Proof. apply (proj1 fab_outline conf_1206 3.20 1.60 0.60); reflexivity. Defined.

End EngineFacts.

(** * The courtyard, in binary64 *)

Section CourtyardFacts.

Local Open Scope Q_scope.

(** The constants of the courtyard as binary64 numbers: the clearance 0.25
    is 2^-2; the grid step 0.05 and its double 0.1 are not binary fractions
    and stand for the nearest floats, 0x1.999999999999Ap-5 and
    0x1.999999999999Ap-4. *)
Lemma courtyard_constants :
  Binary64.ctyd_gap = SpecFloat.S754_finite false 4503599627370496 (-54) ∧
  Binary64.ctyd_grid = SpecFloat.S754_finite false 7205759403792794 (-57) ∧
  Binary64.mul (Binary64.of_Z 2) Binary64.ctyd_grid
  = SpecFloat.S754_finite false 7205759403792794 (-56) ∧
  Binary64.mul (Binary64.of_Z 2) Binary64.ctyd_gap = Binary64.dec 5 1.
Proof. by vm_compute. Qed.

(** [math.ceil] returns the least integer that is not below its finite
    argument. *)
Lemma ceil_least (x : Binary64.float) (q : Q) :
  Binary64.to_Q x = Some q →
  ∃ n : Z, Binary64.ceil x = Some n ∧ inject_Z n - 1 < q ∧ q <= inject_Z n.
Proof.
  intros Hq. exists (Qceiling q). unfold Binary64.ceil. rewrite Hq.
  split; [reflexivity|].
  pose proof (Qle_ceiling q) as Hle. pose proof (Qceiling_lt q) as Hlt.
  unfold Z.sub in Hlt. rewrite inject_Z_plus in Hlt.
  assert (Hm : inject_Z (-1) == - (1)) by reflexivity.
  rewrite Hm in Hlt. split; [lra|done].
Qed.

(** C2 (as the code has it): the courtyard is the centred rectangle of a
    width and a height computed in binary64.  The width starts as the float
    sum pad width + pitch + 2 clearances and the height as pad height + 2
    clearances; each is divided by the doubled grid step, which is the
    float 0.1; the float quotient is rounded up to the least integer that is
    not below it, and that integer is multiplied by the float 0.1.  [ctyd]
    raises exactly when one of the two quotients is infinite or not a
    number. *)
Theorem ctyd_ceiling (conf : gmap string Binary64.value) pw ph p :
  conf !! "pad_shape" = Some (Binary64.VPair pw ph) →
  conf !! "pitch" = Some (Binary64.VNum p) →
  let two := Binary64.of_Z 2 in
  let width :=
    Binary64.add (Binary64.add pw p) (Binary64.mul two Binary64.ctyd_gap) in
  let height := Binary64.add ph (Binary64.mul two Binary64.ctyd_gap) in
  let grid := Binary64.mul two Binary64.ctyd_grid in
  grid = Binary64.dec 1 1 ∧
  (Binary64.ctyd conf = None ↔
   Binary64.to_Q (Binary64.div width grid) = None ∨
   Binary64.to_Q (Binary64.div height grid) = None) ∧
  ∀ qw qh,
    Binary64.to_Q (Binary64.div width grid) = Some qw →
    Binary64.to_Q (Binary64.div height grid) = Some qh →
    ∃ n m : Z,
      (inject_Z n - 1 < qw ∧ qw <= inject_Z n) ∧
      (inject_Z m - 1 < qh ∧ qh <= inject_Z m) ∧
      Binary64.ctyd conf
      = Some (Binary64.draw_square
                (Binary64.mul grid (Binary64.of_Z n))
                (Binary64.mul grid (Binary64.of_Z m))
                (Binary64.of_Z 0, Binary64.of_Z 0) "F.CrtYd"
                Binary64.ctyd_width).2.
Proof.
  intros Hs Hp two width height grid.
  split; [by vm_compute|].
  unfold Binary64.ctyd. rewrite Hs, Hp. cbn [mbind option_bind Binary64.item0
    Binary64.item1 Binary64.as_num].
  fold two. fold width. fold height. fold grid.
  clearbody width height grid. clear two.
  split.
  - unfold Binary64.ceil.
    destruct (Binary64.to_Q (Binary64.div width grid)) as [qw|];
      cbn [fmap option_fmap option_map mbind option_bind]; [|by split; auto].
    destruct (Binary64.to_Q (Binary64.div height grid)) as [qh|];
      cbn [fmap option_fmap option_map mbind option_bind]; [|by split; auto].
    split; [done|]. by intros [?|?].
  - intros qw qh Hw Hh.
    destruct (ceil_least _ _ Hw) as (n & -> & Hn).
    destruct (ceil_least _ _ Hh) as (m & -> & Hm).
    exists n, m. split; [done|]. split; [done|]. reflexivity.
Qed.

Lemma ctyd_ceiling_witness :
  let two := Binary64.of_Z 2 in
  let width :=
    Binary64.add (Binary64.add (Binary64.dec 62 2) (Binary64.dec 90 2))
      (Binary64.mul two Binary64.ctyd_gap) in
  let height := Binary64.add (Binary64.dec 62 2) (Binary64.mul two Binary64.ctyd_gap) in
  let grid := Binary64.mul two Binary64.ctyd_grid in
  grid = Binary64.dec 1 1 ∧
  (Binary64.ctyd Binary64.conf_0402 = None ↔
   Binary64.to_Q (Binary64.div width grid) = None ∨
   Binary64.to_Q (Binary64.div height grid) = None) ∧
  ∀ qw qh,
    Binary64.to_Q (Binary64.div width grid) = Some qw →
    Binary64.to_Q (Binary64.div height grid) = Some qh →
    ∃ n m : Z,
      (inject_Z n - 1 < qw ∧ qw <= inject_Z n) ∧
      (inject_Z m - 1 < qh ∧ qh <= inject_Z m) ∧
      Binary64.ctyd Binary64.conf_0402
      = Some (Binary64.draw_square
                (Binary64.mul grid (Binary64.of_Z n))
                (Binary64.mul grid (Binary64.of_Z m))
                (Binary64.of_Z 0, Binary64.of_Z 0) "F.CrtYd"
                Binary64.ctyd_width).2.
Proof.
  apply (ctyd_ceiling Binary64.conf_0402 (Binary64.dec 62 2) (Binary64.dec 62 2)
           (Binary64.dec 90 2)); reflexivity.
Defined.

(** C2 (as stated) fails.  With a pad of height 0.40000000000000013 the
    unrounded height is the float 0.9000000000000001 and the courtyard is
    the float 0.9 high: it is below the unrounded value.  For the entry
    "0402" of the table the courtyard is the float 1.2000000000000002 high,
    which is no integer multiple of 0.05. *)
Lemma ctyd_below_unrounded :
  (∃ W H qH qh,
     Binary64.ctyd Binary64.conf_0402_low
     = Some (Binary64.draw_square W H (Binary64.of_Z 0, Binary64.of_Z 0)
               "F.CrtYd" Binary64.ctyd_width).2 ∧
     Binary64.to_Q H = Some qH ∧
     Binary64.to_Q (Binary64.add (Binary64.dec 40000000000000013 17)
                      (Binary64.mul (Binary64.of_Z 2) Binary64.ctyd_gap))
     = Some qh ∧
     qH < qh) ∧
  (∃ W H qH,
     Binary64.ctyd Binary64.conf_0402
     = Some (Binary64.draw_square W H (Binary64.of_Z 0, Binary64.of_Z 0)
               "F.CrtYd" Binary64.ctyd_width).2 ∧
     Binary64.to_Q H = Some qH ∧
     qH == 5404319552844596 # 4503599627370496 ∧
     ∀ k : Z, ¬ qH == inject_Z k * 0.05).
Proof.
  split.
  - exists (Binary64.mul (Binary64.dec 1 1) (Binary64.of_Z 21)),
      (Binary64.mul (Binary64.dec 1 1) (Binary64.of_Z 9)).
    eexists _, _. split; [by vm_compute|].
    split; [by vm_compute|]. split; [by vm_compute|]. by vm_compute.
  - exists (Binary64.mul (Binary64.dec 1 1) (Binary64.of_Z 21)),
      (Binary64.mul (Binary64.dec 1 1) (Binary64.of_Z 12)).
    eexists. split; [by vm_compute|]. split; [by vm_compute|].
    split; [by vm_compute|].
    intros k Hk. unfold Qeq in Hk. cbn in Hk. lia.
Qed.

End CourtyardFacts.


(** * Properties of documents and of the filter of the writer *)

Section DocumentFacts.

Local Open Scope Q_scope.
Implicit Types conf : gmap string value.

Lemma sexp_eqb_refl d : sexp_eqb d d = true.
Proof.
  induction d as [| s | q | l IH] using sexp_nested_ind; try reflexivity.
  - simpl. by apply bool_decide_eq_true.
  - simpl. apply Qeq_bool_iff. reflexivity.
  - change (list_sexp_eqb l l = true).
    induction IH as [|x l Hx _ IHl]; [reflexivity|].
    simpl. by rewrite Hx, IHl.
Qed.

Lemma sexp_eqb_sym a b : sexp_eqb a b = sexp_eqb b a.
Proof.
  revert b. induction a as [| s | q | l IH] using sexp_nested_ind;
    intros [| t | r | m]; try reflexivity.
  - simpl. apply bool_decide_ext. split; congruence.
  - simpl. apply eq_true_iff_eq. rewrite !Qeq_bool_iff. split; intros H; by symmetry.
  - change (list_sexp_eqb l m = list_sexp_eqb m l). revert m.
    induction IH as [|x l Hx _ IHl]; intros [|y m]; try reflexivity.
    simpl. by rewrite Hx, IHl.
Qed.

Lemma sexp_eqb_trans a b c :
  sexp_eqb a b = true → sexp_eqb b c = true → sexp_eqb a c = true.
Proof.
  revert b c. induction a as [| s | q | l IH] using sexp_nested_ind;
    intros [| t | r | m] [| u | v | n]; try discriminate; try reflexivity.
  - simpl. rewrite !bool_decide_eq_true. congruence.
  - simpl. rewrite !Qeq_bool_iff. intros H1 H2. by rewrite H1.
  - change (list_sexp_eqb l m = true → list_sexp_eqb m n = true →
            list_sexp_eqb l n = true). revert m n.
    induction IH as [|x l Hx _ IHl]; intros [|y m] [|z n]; try discriminate;
      try reflexivity.
    simpl. rewrite !andb_true_iff. intros [H1 H2] [H3 H4]. eauto.
Qed.

Lemma list_sexp_eqb_refl l : list_sexp_eqb l l = true.
Proof. induction l as [|x l IH]; [reflexivity|]. simpl. by rewrite sexp_eqb_refl. Qed.

Lemma list_sexp_eqb_sym l m : list_sexp_eqb l m = list_sexp_eqb m l.
Proof. apply (sexp_eqb_sym (SList l) (SList m)). Qed.

Lemma list_sexp_eqb_trans l m n :
  list_sexp_eqb l m = true → list_sexp_eqb m n = true → list_sexp_eqb l n = true.
Proof. apply (sexp_eqb_trans (SList l) (SList m) (SList n)). Qed.

(** The filter of the writer on a concatenation, and on kept elements. *)
Lemma drop_tedit_app l m :
  drop_tedit (l ++ m) = a ← drop_tedit l; b ← drop_tedit m; Some (a ++ b)%list.
Proof.
  induction l as [|x l IH]; simpl.
  - by destruct (drop_tedit m).
  - destruct (py_first x) as [h|]; [|reflexivity]. simpl. rewrite IH.
    destruct (drop_tedit l) as [a|]; [|reflexivity]. simpl.
    destruct (drop_tedit m) as [b|]; [|reflexivity]. simpl.
    by destruct (sexp_eqb h (SStr "tedit")).
Qed.

Lemma drop_tedit_kept l : Forall kept l → drop_tedit l = Some l.
Proof.
  induction 1 as [|x l (h & Hh & Hne) _ IH]; [reflexivity|].
  simpl. rewrite Hh. simpl. rewrite IH. simpl. by rewrite Hne.
Qed.

Lemma drop_tedit_element now l :
  drop_tedit (tedit_element now :: l) = drop_tedit l.
Proof. simpl. by destruct (drop_tedit l). Qed.

Lemma kept_fp_line a b layer w : kept (fp_line a b layer w).
Proof. eexists. split; reflexivity. Qed.

Lemma kept_fp_text k t at_ layer sz th : kept (fp_text k t at_ layer sz th).
Proof. eexists. split; reflexivity. Qed.

Lemma kept_pad n t sh at_ sz layers : kept (pad n t sh at_ sz layers).
Proof. eexists. split; reflexivity. Qed.

End DocumentFacts.

(** * Properties of the document assembler *)

(** Case analysis on every field an engine function reads, down to the one
    case in which it returns. *)
Ltac engine_cases H :=
  repeat (match type of H with
          | context [?c !! ?k] => destruct (c !! k) as [[]|]
          end; simpl in H; try discriminate H);
  injection H as <-.

Section AssemblerFacts.

Local Open Scope Q_scope.
Implicit Types conf : gmap string value.

Ltac all_kept :=
  repeat (apply Forall_cons_2;
          [first [apply kept_fp_line | apply kept_fp_text | apply kept_pad]|]);
  apply Forall_nil_2.

Lemma refs_kept conf r : refs conf = Some r → Forall kept r.
Proof.
  intros H. unfold refs in H. engine_cases H; all_kept.
Qed.

Lemma fab_kept conf r : fab conf = Some r → Forall kept r.
Proof.
  intros H. unfold fab in H. engine_cases H; all_kept.
Qed.

Lemma internal_silk_kept conf r : internal_silk conf = Some r → Forall kept r.
Proof.
  intros H. unfold internal_silk in H. engine_cases H; all_kept.
Qed.

Lemma triangle_silk_kept conf r : triangle_silk conf = Some r → Forall kept r.
Proof.
  intros H. unfold triangle_silk in H. engine_cases H; all_kept.
Qed.

Lemma silk_kept conf r : silk conf = Some r → Forall kept r.
Proof.
  unfold silk, external_silk, pin1_silk.
  repeat case_match; eauto using internal_silk_kept, triangle_silk_kept;
    intros [= <-]; constructor.
Qed.

Lemma ctyd_kept conf r : ctyd conf = Some r → Forall kept r.
Proof.
  intros H. unfold ctyd in H. engine_cases H; all_kept.
Qed.

Lemma pads_kept conf r : pads conf = Some r → Forall kept r.
Proof.
  intros H. unfold pads in H. engine_cases H; all_kept.
Qed.

(** The engine reads the fields of the specification only. *)
Lemma same_spec_lookup conf1 conf2 k :
  same_spec conf1 conf2 → k ∈ spec_fields → conf1 !! k = conf2 !! k.
Proof. intros H. apply H. Qed.

Ltac use_same_spec H :=
  repeat match goal with
    | |- context [?c !! ?k] =>
        lazymatch type of H with
        | same_spec c _ => rewrite (same_spec_lookup _ _ k H) by (unfold spec_fields; set_solver)
        end
    end.

Lemma engine_same_spec conf1 conf2 :
  same_spec conf1 conf2 →
  refs conf1 = refs conf2 ∧ fab conf1 = fab conf2 ∧ silk conf1 = silk conf2 ∧
  ctyd conf1 = ctyd conf2 ∧ pads conf1 = pads conf2.
Proof.
  intros H.
  unfold refs, fab, silk, internal_silk, triangle_silk, ctyd, pads.
  use_same_spec H. done.
Qed.

(** The assembler, one output after the other. *)
Lemma footprint_sexp_unfold now conf :
  footprint_sexp now conf
  = name ← conf !! "name";
    r ← refs conf; f ← fab conf; s ← silk conf; c ← ctyd conf; p ← pads conf;
    Some (SList ([SStr "module"; sexp_of_value name;
                  SList [SStr "layer"; SStr "F.Cu"]] ++
                 tedit_element now :: r ++ f ++ s ++ c ++ p)%list).
Proof.
  unfold footprint_sexp.
  destruct (conf !! "name") as [name|]; [|reflexivity]. simpl.
  destruct (refs conf) as [r|]; [|reflexivity]. simpl.
  destruct (fab conf) as [f|]; [|reflexivity]. simpl.
  destruct (silk conf) as [s|]; [|reflexivity]. simpl.
  destruct (ctyd conf) as [c|]; [|reflexivity]. simpl.
  destruct (pads conf) as [p|]; [|reflexivity]. simpl.
  by rewrite <- !app_assoc.
Qed.

Lemma drop_tedit_header name :
  (∃ n, name = VStr n ∧ n ≠ "") →
  Forall kept [SStr "module"; sexp_of_value name; SList [SStr "layer"; SStr "F.Cu"]].
Proof.
  intros (n & -> & Hn). destruct n as [|c n]; [done|].
  repeat apply Forall_cons_2; try apply Forall_nil_2; eexists; (split; [reflexivity|]).
  - reflexivity.
  - simpl. apply bool_decide_eq_false. intros [=].
  - reflexivity.
Qed.

Lemma drop_tedit_document now hdr body :
  Forall kept body →
  strip_tedit (SList (hdr ++ tedit_element now :: body))
  = h ← drop_tedit hdr; Some (h ++ body)%list.
Proof.
  intros Hb. change (strip_tedit (SList ?l)) with (drop_tedit l).
  by rewrite drop_tedit_app, drop_tedit_element, (drop_tedit_kept body).
Qed.

Lemma engine_kept conf r f s c p :
  refs conf = Some r → fab conf = Some f → silk conf = Some s →
  ctyd conf = Some c → pads conf = Some p →
  Forall kept (r ++ f ++ s ++ c ++ p).
Proof.
  intros. rewrite !Forall_app.
  eauto 10 using refs_kept, fab_kept, silk_kept, ctyd_kept, pads_kept.
Qed.

(** What the filter of the writer leaves of a generated document. *)
Lemma strip_footprint now conf d :
  footprint_sexp now conf = Some d →
  ∃ name r f s c p,
    conf !! "name" = Some name ∧ refs conf = Some r ∧ fab conf = Some f ∧
    silk conf = Some s ∧ ctyd conf = Some c ∧ pads conf = Some p ∧
    strip_tedit d
    = h ← drop_tedit [SStr "module"; sexp_of_value name;
                      SList [SStr "layer"; SStr "F.Cu"]];
      Some (h ++ r ++ f ++ s ++ c ++ p)%list.
Proof.
  rewrite footprint_sexp_unfold. intros H.
  destruct (conf !! "name") as [name|]; [|done]. simpl in H.
  destruct (refs conf) as [r|] eqn:Hr; [|done]. simpl in H.
  destruct (fab conf) as [f|] eqn:Hf; [|done]. simpl in H.
  destruct (silk conf) as [s|] eqn:Hs; [|done]. simpl in H.
  destruct (ctyd conf) as [c|] eqn:Hc; [|done]. simpl in H.
  destruct (pads conf) as [p|] eqn:Hp; [|done]. simpl in H.
  injection H as <-. exists name, r, f, s, c, p. repeat (split; [reflexivity|]).
  exact (drop_tedit_document now [_; _; _] (r ++ f ++ s ++ c ++ p)
           (engine_kept _ _ _ _ _ _ Hr Hf Hs Hc Hp)).
Qed.

(** C8: the assembled document is the header (the name, the copper layer
    tag, the tedit timestamp) followed by the outputs of the engine in the
    order reference/value text, fabrication, silkscreen, courtyard, pads;
    the text of the footprint is its serialization. *)
Theorem footprint_order {text : Type} (sexp_generate : sexp → text) now conf t :
  footprint sexp_generate now conf = Some t ↔
  ∃ name r f s c p,
    conf !! "name" = Some name ∧ refs conf = Some r ∧ fab conf = Some f ∧
    silk conf = Some s ∧ ctyd conf = Some c ∧ pads conf = Some p ∧
    t = sexp_generate
          (SList ([SStr "module"; sexp_of_value name;
                   SList [SStr "layer"; SStr "F.Cu"];
                   SList [SStr "tedit"; SStr (format_X (py_int now))]] ++
                  r ++ f ++ s ++ c ++ p)%list).
Proof.
  unfold footprint. rewrite footprint_sexp_unfold. split.
  - intros H.
    destruct (conf !! "name") as [name|]; [|done]. simpl in H.
    destruct (refs conf) as [r|]; [|done]. simpl in H.
    destruct (fab conf) as [f|]; [|done]. simpl in H.
    destruct (silk conf) as [s|]; [|done]. simpl in H.
    destruct (ctyd conf) as [c|]; [|done]. simpl in H.
    destruct (pads conf) as [p|]; [|done]. simpl in H.
    injection H as <-. by exists name, r, f, s, c, p.
  - intros (name & r & f & s & c & p & -> & -> & -> & -> & -> & -> & ->).
    reflexivity.
Qed.

(** C10: apart from its tedit element the generated document is a function
    of the fields of the specification alone.  Two generations from the same
    specification at any two times fail together or yield documents that
    coincide element by element around their tedit elements; the filter of
    the writer removes that element and nothing else. *)
Theorem footprint_deterministic now1 now2 conf1 conf2 :
  same_spec conf1 conf2 →
  (footprint_sexp now1 conf1 = None ↔ footprint_sexp now2 conf2 = None) ∧
  (∀ d1, footprint_sexp now1 conf1 = Some d1 →
     ∃ pre post,
       d1 = SList (pre ++ tedit_element now1 :: post) ∧
       footprint_sexp now2 conf2
       = Some (SList (pre ++ tedit_element now2 :: post)) ∧
       (∀ n, conf1 !! "name" = Some (VStr n) → n ≠ "" →
             strip_tedit d1 = Some (pre ++ post)%list)) ∧
  footprint_sexp now1 conf1 ≫= strip_tedit
  = footprint_sexp now2 conf2 ≫= strip_tedit.
Proof.
  intros Hsame.
  destruct (engine_same_spec _ _ Hsame) as (Hr & Hf & Hs & Hc & Hp).
  assert (Hn : conf1 !! "name" = conf2 !! "name")
    by (apply Hsame; unfold spec_fields; set_solver).
  rewrite !footprint_sexp_unfold, <- Hn, <- Hr, <- Hf, <- Hs, <- Hc, <- Hp.
  destruct (conf1 !! "name") as [name|]; [|done]. cbn -[app].
  destruct (refs conf1) as [r|] eqn:Er; [|done]. cbn -[app].
  destruct (fab conf1) as [f|] eqn:Ef; [|done]. cbn -[app].
  destruct (silk conf1) as [s|] eqn:Es; [|done]. cbn -[app].
  destruct (ctyd conf1) as [c|] eqn:Ec; [|done]. cbn -[app].
  destruct (pads conf1) as [p|] eqn:Ep; [|done]. cbn -[app].
  set (hdr := [SStr "module"; sexp_of_value name;
               SList [SStr "layer"; SStr "F.Cu"]]).
  set (body := (r ++ f ++ s ++ c ++ p)%list).
  assert (Hbody : Forall kept body) by (subst body; eauto using engine_kept).
  split; [done|]. split.
  - intros d1 [= <-]. exists hdr, body.
    split; [reflexivity|]. split; [reflexivity|].
    intros n [= ->] Hne.
    etrans; [exact (drop_tedit_document now1 hdr body Hbody)|].
    by rewrite (drop_tedit_kept hdr) by (apply drop_tedit_header; eauto).
  - etrans; [exact (drop_tedit_document now1 hdr body Hbody)|].
    symmetry. exact (drop_tedit_document now2 hdr body Hbody).
Qed.

Lemma footprint_deterministic_witness :
  ∃ pre post,
    footprint_sexp 1446654321 (<["name" := VStr "0402"]> conf_0402)
    = Some (SList (pre ++ tedit_element 1446654321 :: post)) ∧
    footprint_sexp 1446659999.5 (<["name" := VStr "0402"]> conf_0402)
    = Some (SList (pre ++ tedit_element 1446659999.5 :: post)).
Proof.
  destruct (footprint_sexp 1446654321 (<["name" := VStr "0402"]> conf_0402))
    as [d1|] eqn:E; [|discriminate E].
  destruct (proj1 (proj2 (footprint_deterministic 1446654321 1446659999.5
                            (<["name" := VStr "0402"]> conf_0402)
                            (<["name" := VStr "0402"]> conf_0402)
                            (λ k _, eq_refl))) d1 E)
    as (pre & post & -> & H2 & _).
  by exists pre, post.
Defined.

End AssemblerFacts.

(** * Properties of the idempotent writer *)

Section StrippedFacts.

Local Open Scope Q_scope.
Implicit Types conf : gmap string value.

(** The filter of the writer on a generated document does not see the
    time. *)
Lemma stripped_footprint now conf :
  footprint_sexp now conf ≫= strip_tedit = stripped conf.
Proof.
  rewrite footprint_sexp_unfold. unfold stripped.
  destruct (conf !! "name") as [name|]; [|done]. cbn -[app drop_tedit].
  destruct (refs conf) as [r|] eqn:Hr; [|done]. cbn -[app drop_tedit].
  destruct (fab conf) as [f|] eqn:Hf; [|done]. cbn -[app drop_tedit].
  destruct (silk conf) as [s|] eqn:Hs; [|done]. cbn -[app drop_tedit].
  destruct (ctyd conf) as [c|] eqn:Hc; [|done]. cbn -[app drop_tedit].
  destruct (pads conf) as [p|] eqn:Hp; [|done]. cbn -[app drop_tedit].
  exact (drop_tedit_document now
           [SStr "module"; sexp_of_value name; SList [SStr "layer"; SStr "F.Cu"]]
           (r ++ f ++ s ++ c ++ p)
           (engine_kept _ _ _ _ _ _ Hr Hf Hs Hc Hp)).
Qed.

Lemma stripped_generated conf n now :
  stripped conf = Some n → is_Some (footprint_sexp now conf).
Proof.
  rewrite <- (stripped_footprint now). by destruct (footprint_sexp now conf).
Qed.

Lemma generated_stripped now conf d name :
  footprint_sexp now conf = Some d →
  conf !! "name" = Some (VStr name) → name ≠ "" →
  is_Some (stripped conf).
Proof.
  intros Hd Hn Hne. rewrite <- (stripped_footprint now), Hd.
  change (is_Some (strip_tedit d)).
  destruct (strip_footprint _ _ _ Hd)
    as (nm & r & f & s & c & p & Hnm & _ & _ & _ & _ & _ & ->).
  rewrite Hn in Hnm. injection Hnm as <-.
  rewrite (drop_tedit_kept [_; _; _]) by (apply drop_tedit_header; eauto).
  by eexists.
Qed.

(** The fields an output of the engine proves present, and the outputs the
    fields give. *)
Lemma pads_fields conf p :
  pads conf = Some p →
  ∃ pt pw ph,
    conf !! "pitch" = Some (VNum pt) ∧ conf !! "pad_shape" = Some (VPair pw ph).
Proof.
  intros H. unfold pads in H.
  destruct (conf !! "pitch") as [[| |pt|]|]; simpl in H; try discriminate H.
  destruct (conf !! "pad_shape") as [[| | |pw ph]|]; simpl in H;
    try discriminate H.
  by exists pt, pw, ph.
Qed.

Lemma fab_fields conf f :
  fab conf = Some f →
  ∃ cw ch t,
    conf !! "chip_shape" = Some (VPair cw ch) ∧ conf !! "terminal" = Some (VNum t).
Proof.
  intros H. unfold fab in H.
  destruct (conf !! "chip_shape") as [[| | |cw ch]|]; simpl in H;
    try discriminate H.
  destruct (conf !! "terminal") as [[| |t|]|]; simpl in H; try discriminate H.
  by exists cw, ch, t.
Qed.

Lemma pads_value conf pt pw ph :
  conf !! "pitch" = Some (VNum pt) →
  conf !! "pad_shape" = Some (VPair pw ph) →
  pads conf = Some [pad 1 "smd" "rect" (- (pt / 2), 0) (pw, ph)
                      ["F.Cu"; "F.Mask"; "F.Paste"]%string;
                    pad 2 "smd" "rect" (pt / 2, 0) (pw, ph)
                      ["F.Cu"; "F.Mask"; "F.Paste"]%string].
Proof. intros Hp Hs. unfold pads. rewrite Hp, Hs. reflexivity. Qed.

Lemma fab_value conf cw ch t :
  conf !! "chip_shape" = Some (VPair cw ch) →
  conf !! "terminal" = Some (VNum t) →
  fab conf
  = Some ((draw_square cw ch (0, 0) "F.Fab" fab_width).2 ++
          [fp_line (0 - cw / 2 + t, - ch / 2) (0 - cw / 2 + t, ch / 2)
             "F.Fab" fab_width;
           fp_line (0 + cw / 2 - t, - ch / 2) (0 + cw / 2 - t, ch / 2)
             "F.Fab" fab_width])%list.
Proof. intros Hc Ht. unfold fab. rewrite Hc, Ht. reflexivity. Qed.

Lemma refs_length conf r : refs conf = Some r → length r = 2%nat.
Proof. intros H. unfold refs in H. engine_cases H; reflexivity. Qed.

Lemma ctyd_length conf c : ctyd conf = Some c → length c = 4%nat.
Proof. intros H. unfold ctyd in H. engine_cases H; reflexivity. Qed.

End StrippedFacts.


(** * Properties of the loop of the writer *)

Section WriterFacts.

Context {text : Type}.
Variable sexp_generate : sexp → text.
Variable sexp_parse : text → option sexp.

Implicit Types (conf : gmap string value) (files : gmap string text).
Implicit Types items : list (string * gmap string value).

(** One turn of the loop of [main]. *)
Lemma main_loop_cons_inv clock i p name conf rest files r files' w :
  main_loop sexp_generate sexp_parse clock i p ((name, conf) :: rest) files
  = Some (r, files', w) →
  ∃ fp skip rest' w',
    footprint sexp_generate (clock i) (<["name" := VStr name]> conf) = Some fp ∧
    match files !! target p name with
    | Some old => identical sexp_parse fp old
    | None => Some false
    end = Some skip ∧
    main_loop sexp_generate sexp_parse clock (S i) p rest
      (if skip then files else <[target p name := fp]> files)
    = Some (rest', files', w') ∧
    r = (name, <["name" := VStr name]> conf) :: rest' ∧
    w = if skip then w' else target p name :: w'.
Proof.
  cbn [main_loop]. intros H.
  destruct (footprint _ _ _) as [fp|] eqn:Efp; [|done]. simpl in H.
  destruct (match files !! target p name with
            | Some old => identical sexp_parse fp old
            | None => Some false
            end) as [skip|] eqn:Eskip; [|done].
  simpl in H.
  destruct (main_loop _ _ _ _ _ _ _) as [[[rest' files''] w']|] eqn:Erest;
    [|done].
  simpl in H. injection H as <- <- <-.
  by exists fp, skip, rest', w'.
Qed.

Lemma main_loop_registry clock i p items files r files' w :
  main_loop sexp_generate sexp_parse clock i p items files = Some (r, files', w) →
  r = named items.
Proof.
  revert i files r files' w. induction items as [|[name conf] rest IH];
    intros i files r files' w H.
  - by injection H as <- <- <-.
  - apply main_loop_cons_inv in H
      as (fp & skip & rest' & w' & _ & _ & Hrest & -> & _).
    apply IH in Hrest as ->. reflexivity.
Qed.

(** The loop touches the files of its own packages only. *)
Lemma main_loop_other_files clock i p items files r files' w path :
  main_loop sexp_generate sexp_parse clock i p items files = Some (r, files', w) →
  path ∉ target p <$> items.*1 →
  files' !! path = files !! path.
Proof.
  revert i files r files' w. induction items as [|[name conf] rest IH];
    intros i files r files' w H Hpath.
  - by injection H as <- <- <-.
  - apply main_loop_cons_inv in H
      as (fp & skip & rest' & w' & _ & _ & Hrest & _ & _).
    cbn in Hpath. apply not_elem_of_cons in Hpath as [Hne Hpath].
    rewrite (IH _ _ _ _ _ Hrest Hpath).
    destruct skip; [done|]. by rewrite lookup_insert_ne.
Qed.

(** The paths written are paths of the packages. *)
Lemma main_loop_written clock i p items files r files' w path :
  main_loop sexp_generate sexp_parse clock i p items files = Some (r, files', w) →
  path ∈ w → path ∈ target p <$> items.*1.
Proof.
  revert i files r files' w. induction items as [|[name conf] rest IH];
    intros i files r files' w H Hin.
  - injection H as <- <- <-. by apply elem_of_nil in Hin.
  - apply main_loop_cons_inv in H
      as (fp & skip & rest' & w' & _ & _ & Hrest & _ & ->).
    cbn. destruct skip.
    + right. eauto.
    + apply elem_of_cons in Hin as [->|Hin]; [left|right]; eauto.
Qed.

(** C9 (as the code has it): the loop of [main] changes each registry entry
    it visits in one way only, by setting its "name" field to the key of the
    entry; every other field keeps the value of the configuration table. *)
Theorem main_names_registry clock p items files r files' w :
  main sexp_generate sexp_parse clock p items files = Some (r, files', w) →
  length r = length items ∧
  ∀ i name conf,
    items !! i = Some (name, conf) →
    ∃ conf',
      r !! i = Some (name, conf') ∧
      conf' !! "name" = Some (VStr name) ∧
      ∀ k, k ≠ "name" → conf' !! k = conf !! k.
Proof.
  unfold main. intros H. apply main_loop_registry in H as ->.
  unfold named. split; [by rewrite length_fmap|].
  intros i name conf Hi. exists (<["name" := VStr name]> conf).
  split; [by rewrite list_lookup_fmap, Hi|].
  split; [apply lookup_insert_eq|].
  intros k Hk. by apply lookup_insert_ne.
Qed.

End WriterFacts.

Section IdempotenceFacts.

Context {text : Type}.
Variable sexp_generate : sexp → text.
Variable sexp_parse : text → option sexp.

Implicit Types (conf : gmap string value) (files : gmap string text).
Implicit Types items : list (string * gmap string value).

(** The serializer and the parser of module [sexp] are not under src/.  What
    is taken of them: parsing the serialization of a list gives the list of
    what parsing makes of each element, [read]; and reading an element back
    keeps it subscriptable and keeps whether its first item is "tedit".
    Nothing is taken of the numbers and the strings that are read back: the
    serializer may round the ones and quote the others. *)
Variable read : sexp → sexp.

Hypothesis parse_generate :
  ∀ l, sexp_parse (sexp_generate (SList l)) = Some (SList (read <$> l)).

Hypothesis read_head :
  ∀ n h, py_first n = Some h →
         ∃ h', py_first (read n) = Some h' ∧
               sexp_eqb h' (SStr "tedit") = sexp_eqb h (SStr "tedit").

Lemma drop_tedit_read l l' :
  drop_tedit l = Some l' → drop_tedit (read <$> l) = Some (read <$> l').
Proof.
  revert l'. induction l as [|x l IH]; intros l' H.
  - by injection H as <-.
  - simpl in H. destruct (py_first x) as [h|] eqn:Hh; [|done]. simpl in H.
    destruct (drop_tedit l) as [rest|]; [|done]. simpl in H.
    destruct (read_head _ _ Hh) as (h' & Hh' & Heq).
    cbn [fmap list_fmap drop_tedit]. rewrite Hh'. simpl.
    rewrite (IH rest eq_refl). simpl. rewrite Heq.
    by destruct (sexp_eqb h (SStr "tedit")); injection H as <-.
Qed.

Lemma footprint_sexp_list now conf d :
  footprint_sexp now conf = Some d → ∃ l, d = SList l.
Proof.
  rewrite footprint_sexp_unfold. intros H.
  destruct (conf !! "name") as [name|]; [|done]. simpl in H.
  destruct (refs conf) as [r|]; [|done]. simpl in H.
  destruct (fab conf) as [f|]; [|done]. simpl in H.
  destruct (silk conf) as [s|]; [|done]. simpl in H.
  destruct (ctyd conf) as [c|]; [|done]. simpl in H.
  destruct (pads conf) as [q|]; [|done]. simpl in H.
  injection H as <-. by eexists.
Qed.

(** What the writer reads back of a footprint it generated. *)
Lemma footprint_parsed now conf fp n :
  footprint sexp_generate now conf = Some fp →
  stripped conf = Some n →
  sexp_parse fp ≫= strip_tedit = Some (read <$> n).
Proof.
  unfold footprint. intros H Hn.
  destruct (footprint_sexp now conf) as [d|] eqn:Hd; [|done].
  injection H as <-.
  destruct (footprint_sexp_list _ _ _ Hd) as [l ->].
  rewrite <- (stripped_footprint now), Hd in Hn.
  rewrite parse_generate. by apply drop_tedit_read.
Qed.

Lemma footprint_stripped now conf n :
  stripped conf = Some n → is_Some (footprint sexp_generate now conf).
Proof.
  intros H. unfold footprint.
  destruct (stripped_generated _ _ now H) as [d ->]. by eexists.
Qed.

Lemma footprint_named_stripped now name conf fp :
  footprint sexp_generate now (<["name" := VStr name]> conf) = Some fp →
  name ≠ "" →
  is_Some (stripped (<["name" := VStr name]> conf)).
Proof.
  unfold footprint. intros H Hne.
  destruct (footprint_sexp now _) as [d|] eqn:Hd; [|done].
  apply (generated_stripped _ _ _ name Hd); [apply lookup_insert_eq|done].
Qed.

(** The comparison of the writer, on a footprint it generated. *)
Lemma identical_generated now conf fp old n :
  footprint sexp_generate now conf = Some fp →
  stripped conf = Some n →
  identical sexp_parse fp old
  = o ← sexp_parse old ≫= strip_tedit; Some (list_sexp_eqb (read <$> n) o).
Proof.
  intros Hfp Hn. unfold identical. rewrite (footprint_parsed _ _ _ _ Hfp Hn).
  by destruct (sexp_parse old ≫= strip_tedit).
Qed.

(** After a run every package has a file that matches its
    specification. *)
Lemma main_loop_settles clock i p items files r files' w :
  NoDup (target p <$> items.*1) →
  (∀ name, name ∈ items.*1 → name ≠ "") →
  main_loop sexp_generate sexp_parse clock i p items files = Some (r, files', w) →
  ∀ name conf, (name, conf) ∈ items →
               settled sexp_parse read files' p name (<["name" := VStr name]> conf).
Proof.
  revert i files r files' w. induction items as [|[name0 conf0] rest IH];
    intros i files r files' w Hnd Hne H name conf Hin.
  - by apply elem_of_nil in Hin.
  - apply main_loop_cons_inv in H
      as (fp & skip & rest' & w' & Hfp & Hskip & Hrest & _ & _).
    cbn in Hnd. apply NoDup_cons in Hnd as [Hfresh Hnd].
    apply elem_of_cons in Hin as [[= -> ->]|Hin].
    + destruct (footprint_named_stripped _ _ _ _ Hfp) as [n Hn].
      { apply Hne. cbn. left. }
      unfold settled.
      rewrite (main_loop_other_files _ _ _ _ _ _ _ _ _ _ _ Hrest Hfresh).
      destruct skip.
      * destruct (files !! target p name0) as [old|] eqn:Hold; [|done].
        rewrite (identical_generated _ _ _ _ _ Hfp Hn) in Hskip.
        destruct (sexp_parse old ≫= strip_tedit) as [o|] eqn:Ho; [|done].
        injection Hskip as Hb. by exists old, o, n.
      * rewrite lookup_insert_eq. exists fp, (read <$> n), n.
        split; [done|]. split; [by apply (footprint_parsed _ _ _ _ Hfp)|].
        split; [done|]. apply list_sexp_eqb_refl.
    + eapply IH; [done| |exact Hrest|done].
      intros n Hn. apply Hne. cbn. by right.
Qed.

(** A run over packages whose files match performs no write. *)
Lemma main_loop_settled clock i p items files :
  (∀ name conf, (name, conf) ∈ items →
                settled sexp_parse read files p name (<["name" := VStr name]> conf)) →
  main_loop sexp_generate sexp_parse clock i p items files
  = Some (named items, files, []).
Proof.
  revert i. induction items as [|[name conf] rest IH]; intros i Hall; [done|].
  cbn [main_loop].
  destruct (Hall name conf) as (old & o & n & Hold & Ho & Hn & Heq); [left|].
  destruct (footprint_stripped (clock i) _ _ Hn) as [fp Hfp].
  rewrite Hfp. simpl. rewrite Hold.
  rewrite (identical_generated _ _ _ _ _ Hfp Hn), Ho. simpl.
  rewrite Heq. simpl. rewrite IH; [done|].
  intros name' conf' Hin. apply Hall. by right.
Qed.

(** A run writes the file of a package exactly when what it reads back of
    the new footprint differs from what it reads of the file. *)
Lemma main_loop_rewrites clock i p items files r files' w name conf old o n :
  NoDup (target p <$> items.*1) →
  main_loop sexp_generate sexp_parse clock i p items files = Some (r, files', w) →
  (name, conf) ∈ items →
  files !! target p name = Some old →
  sexp_parse old ≫= strip_tedit = Some o →
  stripped (<["name" := VStr name]> conf) = Some n →
  target p name ∈ w ↔ list_sexp_eqb (read <$> n) o = false.
Proof.
  revert i files r files' w. induction items as [|[name0 conf0] rest IH];
    intros i files r files' w Hnd H Hin Hold Ho Hn.
  - by apply elem_of_nil in Hin.
  - apply main_loop_cons_inv in H
      as (fp & skip & rest' & w' & Hfp & Hskip & Hrest & _ & ->).
    cbn in Hnd. apply NoDup_cons in Hnd as [Hfresh Hnd].
    assert (Hw' : target p name0 ∉ w').
    { intros Hin'. apply Hfresh. by eapply main_loop_written. }
    apply elem_of_cons in Hin as [[= -> ->]|Hin].
    + rewrite Hold, (identical_generated _ _ _ _ _ Hfp Hn), Ho in Hskip.
      injection Hskip as <-.
      destruct (list_sexp_eqb (read <$> n) o); [done|].
      split; [done|]. intros _. left.
    + assert (Hne : target p name ≠ target p name0).
      { intros Heq. apply Hfresh. rewrite <- Heq.
        apply list_elem_of_fmap. exists name. split; [done|].
        apply list_elem_of_fmap. by exists (name, conf). }
      rewrite <- (IH _ _ _ _ _ Hnd Hrest Hin); [|by destruct skip;
        [|rewrite lookup_insert_ne]|done|done].
      destruct skip; [done|]. rewrite elem_of_cons.
      split; [by intros [?|?]|by right].
Qed.

(** A run that returns has generated the footprint of each package. *)
Lemma main_loop_generates clock i p items files r files' w name conf :
  main_loop sexp_generate sexp_parse clock i p items files = Some (r, files', w) →
  (name, conf) ∈ items →
  ∃ j fp, footprint sexp_generate (clock j) (<["name" := VStr name]> conf) = Some fp.
Proof.
  revert i files r files' w. induction items as [|[name0 conf0] rest IH];
    intros i files r files' w H Hin.
  - by apply elem_of_nil in Hin.
  - apply main_loop_cons_inv in H
      as (fp & skip & rest' & w' & Hfp & _ & Hrest & _ & _).
    apply elem_of_cons in Hin as [[= -> ->]|Hin]; [by exists i, fp|].
    by eapply IH.
Qed.

(** A second run, over a table that may have changed. *)
Lemma main_second_run clock1 clock2 p items1 items2 files r1 files1 w1
    r2 files2 w2 name conf1 conf2 :
  NoDup (target p <$> items1.*1) →
  NoDup (target p <$> items2.*1) →
  (∀ name, name ∈ items1.*1 → name ≠ "") →
  main sexp_generate sexp_parse clock1 p items1 files = Some (r1, files1, w1) →
  main sexp_generate sexp_parse clock2 p items2 files1 = Some (r2, files2, w2) →
  (name, conf1) ∈ items1 → (name, conf2) ∈ items2 →
  ∀ now1 now2, ∃ fp1 fp2 b,
    footprint sexp_generate now1 (<["name" := VStr name]> conf1) = Some fp1 ∧
    footprint sexp_generate now2 (<["name" := VStr name]> conf2) = Some fp2 ∧
    identical sexp_parse fp2 fp1 = Some b ∧
    (target p name ∈ w2 ↔ b = false).
Proof.
  unfold main. intros Hnd1 Hnd2 Hne H1 H2 Hin1 Hin2 now1 now2.
  assert (Hname : name ≠ "").
  { apply Hne. apply list_elem_of_fmap. by exists (name, conf1). }
  destruct (main_loop_settles _ _ _ _ _ _ _ _ Hnd1 Hne H1 name conf1 Hin1)
    as (old & o & n1 & Hold & Ho & Hn1 & Heq1).
  destruct (main_loop_generates _ _ _ _ _ _ _ _ _ _ H2 Hin2) as (j & fp & Hfp).
  destruct (footprint_named_stripped _ _ _ _ Hfp Hname) as [n2 Hn2].
  destruct (footprint_stripped now1 _ _ Hn1) as [fp1 Hfp1].
  destruct (footprint_stripped now2 _ _ Hn2) as [fp2 Hfp2].
  exists fp1, fp2, (list_sexp_eqb (read <$> n2) (read <$> n1)).
  split; [done|]. split; [done|]. split.
  - rewrite (identical_generated _ _ _ _ _ Hfp2 Hn2).
    by rewrite (footprint_parsed _ _ _ _ Hfp1 Hn1).
  - rewrite (main_loop_rewrites _ _ _ _ _ _ _ _ _ _ _ _ _ Hnd2 H2 Hin2 Hold Ho Hn2).
    destruct (list_sexp_eqb (read <$> n2) o) eqn:E2;
      destruct (list_sexp_eqb (read <$> n2) (read <$> n1)) eqn:E12; try done.
    + rewrite list_sexp_eqb_sym in Heq1.
      by rewrite (list_sexp_eqb_trans _ _ _ E2 Heq1) in E12.
    + by rewrite (list_sexp_eqb_trans _ _ _ E12 Heq1) in E2.
Qed.

(** C1 (as the code has it): for every package the writer generates the
    footprint and, when a file exists at the target path, parses it and
    compares the two element sequences without their tedit elements; it
    skips the write exactly when they are equal.  Hence a second run over an
    unchanged table writes nothing; and a second run over a changed table
    rewrites the file of a package exactly when the comparison tells the
    footprint of the new specification from that of the old one. *)
Theorem writer_idempotent :
  (∀ clock i p name conf files r files' w,
     main_loop sexp_generate sexp_parse clock i p [(name, conf)] files
     = Some (r, files', w) →
     ∃ fp,
       footprint sexp_generate (clock i) (<["name" := VStr name]> conf) = Some fp ∧
       match files !! target p name with
       | None => files' = <[target p name := fp]> files ∧ w = [target p name]
       | Some old =>
           ∃ o n,
             sexp_parse old ≫= strip_tedit = Some o ∧
             sexp_parse fp ≫= strip_tedit = Some n ∧
             if list_sexp_eqb n o
             then files' = files ∧ w = []
             else files' = <[target p name := fp]> files ∧ w = [target p name]
       end) ∧
  (∀ clock1 clock2 p items files r1 files1 w1,
     NoDup (target p <$> items.*1) →
     (∀ name, name ∈ items.*1 → name ≠ "") →
     main sexp_generate sexp_parse clock1 p items files = Some (r1, files1, w1) →
     main sexp_generate sexp_parse clock2 p items files1 = Some (r1, files1, [])) ∧
  (∀ clock1 clock2 p items1 items2 files r1 files1 w1 r2 files2 w2
     name conf1 conf2,
     NoDup (target p <$> items1.*1) →
     NoDup (target p <$> items2.*1) →
     (∀ name, name ∈ items1.*1 → name ≠ "") →
     main sexp_generate sexp_parse clock1 p items1 files = Some (r1, files1, w1) →
     main sexp_generate sexp_parse clock2 p items2 files1 = Some (r2, files2, w2) →
     (name, conf1) ∈ items1 → (name, conf2) ∈ items2 →
     ∀ now1 now2, ∃ fp1 fp2 b,
       footprint sexp_generate now1 (<["name" := VStr name]> conf1) = Some fp1 ∧
       footprint sexp_generate now2 (<["name" := VStr name]> conf2) = Some fp2 ∧
       identical sexp_parse fp2 fp1 = Some b ∧
       (target p name ∈ w2 ↔ b = false)).
Proof.
  split; [|split].
  - intros clock i p name conf files r files' w H.
    apply main_loop_cons_inv in H
      as (fp & skip & rest' & w' & Hfp & Hskip & Hrest & _ & ->).
    injection Hrest as <- <- <-. exists fp. split; [done|].
    destruct (files !! target p name) as [old|].
    + unfold identical in Hskip.
      destruct (sexp_parse old ≫= strip_tedit) as [o|]; [|done]. simpl in Hskip.
      destruct (sexp_parse fp ≫= strip_tedit) as [n|]; [|done].
      injection Hskip as <-. exists o, n.
      split; [done|]. split; [done|]. by destruct (list_sexp_eqb n o).
    + by injection Hskip as <-.
  - intros clock1 clock2 p items files r1 files1 w1 Hnd Hne H1.
    unfold main in *.
    rewrite (main_loop_registry _ _ _ _ _ _ _ _ _ _ H1).
    apply main_loop_settled. eauto using main_loop_settles.
  - intros clock1 clock2 p items1 items2 files r1 files1 w1 r2 files2 w2
      name conf1 conf2 Hnd1 Hnd2 Hne H1 H2 Hin1 Hin2.
    exact (main_second_run _ _ _ _ _ _ _ _ _ _ _ _ _ _ _
             Hnd1 Hnd2 Hne H1 H2 Hin1 Hin2).
Qed.

End IdempotenceFacts.

(** The registry and an empty directory, with documents kept as they are:
    the serializer and the parser are the identity. *)
Lemma registry_paths_distinct : NoDup (target "out.pretty" <$> config.*1).
Proof. apply (bool_decide_unpack _). vm_compute. exact I. Defined.

Lemma registry_names_nonempty : ∀ name, name ∈ config.*1 → name ≠ "".
Proof.
  intros name Hin. cbn in Hin.
  repeat (apply elem_of_cons in Hin as [->|Hin]; [discriminate|]).
  by apply elem_of_nil in Hin.
Defined.

Lemma registry_first_run :
  is_Some (main (text := sexp) id Some (λ _, 1446654321%Q) "out.pretty" config ∅).
Proof. apply (bool_decide_unpack _). vm_compute. exact I. Defined.

Lemma round4_round4 (q : Q) : round4 (round4 q) = round4 q.
Proof.
  unfold round4 at 1 3. f_equal.
  set (z := Qfloor (q * 10000 + (1 # 2))).
  unfold round4. fold z. unfold Qfloor, Qmult, Qplus. cbn [Qnum Qden].
  clearbody z. change (Z.pos (10000 * 1 * 2)) with 20000%Z.
  change (Z.pos (10000 * 1)) with 10000%Z.
  symmetry. apply Z.div_unique with (r := 10000%Z); lia.
Qed.

(** The stand-in keeps the round trip of the format: serializing what was
    parsed of a serialized document gives the same text. *)
Lemma print4_round_trip (d : sexp) : print4 (print4 d) = print4 d.
Proof.
  induction d as [| s | q | l IH] using sexp_nested_ind; try reflexivity.
  - simpl. by rewrite round4_round4.
  - change (SList (print4 <$> (print4 <$> l)) = SList (print4 <$> l)).
    f_equal. rewrite <- list_fmap_compose. by apply Forall_fmap_ext.
Qed.

(** The stand-in serializer meets what is taken of module [sexp]. *)
Lemma print4_head n h :
  py_first n = Some h →
  ∃ h', py_first (print4 n) = Some h' ∧
        sexp_eqb h' (SStr "tedit") = sexp_eqb h (SStr "tedit").
Proof.
  destruct n as [|[|c s]|q|[|x l]]; try discriminate.
  - intros [= <-]. by eexists.
  - intros [= <-]. exists (print4 x). split; [reflexivity|]. by destruct x.
Defined.

(** The table after the terminal width of "0402" has changed from 0.30 to
    0.300001. *)
Lemma registry_changed_runs :
  is_Some
    (main (text := sexp) print4 Some (λ _, 1446654321%Q) "out.pretty" config ∅
     ≫= λ '(_, files1, _),
       main print4 Some (λ _, 1446659999%Q) "out.pretty"
         (<[1%nat := ("0402", <["terminal" := VNum 0.300001]> conf_0402)]> config)
         files1).
Proof. apply (bool_decide_unpack _). vm_compute. exact I. Defined.

Lemma writer_idempotent_witness :
  ∃ r1 files1 w1,
    main (text := sexp) print4 Some (λ _, 1446654321%Q) "out.pretty" config ∅
    = Some (r1, files1, w1) ∧
    main (text := sexp) print4 Some (λ _, 1446659999%Q) "out.pretty" config files1
    = Some (r1, files1, []).
Proof.
  destruct registry_changed_runs as [x E].
  destruct (main print4 Some (λ _, 1446654321%Q) "out.pretty" config ∅)
    as [[[r1 files1] w1]|] eqn:E1; [|discriminate E].
  exists r1, files1, w1. split; [reflexivity|].
  exact (proj1 (proj2 (writer_idempotent print4 Some print4 (λ l, eq_refl)
                         print4_head))
           (λ _, 1446654321%Q) (λ _, 1446659999%Q) "out.pretty" config ∅
           r1 files1 w1 registry_paths_distinct registry_names_nonempty E1).
Defined.

(** C1 (as stated) fails: a change of a geometric field need not show in
    the documents that the writer compares.  With a serializer that prints
    four decimals, the run after a change of the field "terminal" of "0402"
    from 0.30 to 0.300001 does not write the file of "0402".  And in the
    floats of the source the fabrication drawing of "1206" is the same for
    the terminal widths 0.6 and 0.6000000000000001: the sums -1.6 + t and
    1.6 - t absorb the change, and no other part of the document reads the
    field. *)
Lemma registry_change_unwritten :
  (∃ fs,
     Binary64.fab Binary64.conf_1206 = Some fs ∧
     Binary64.fab (<["terminal" := Binary64.VNum (Binary64.dec 6000000000000001 16)]>
                     Binary64.conf_1206) = Some fs ∧
     Binary64.conf_1206 !! "terminal" = Some (Binary64.VNum (Binary64.dec 60 2)) ∧
     SpecFloat.SFeqb (Binary64.dec 6000000000000001 16) (Binary64.dec 60 2)
     = false) ∧
  ∃ r1 files1 w1 r2 files2 w2,
    main (text := sexp) print4 Some (λ _, 1446654321%Q) "out.pretty" config ∅
    = Some (r1, files1, w1) ∧
    main (text := sexp) print4 Some (λ _, 1446659999%Q) "out.pretty"
      (<[1%nat := ("0402", <["terminal" := VNum 0.300001]> conf_0402)]> config)
      files1
    = Some (r2, files2, w2) ∧
    config !! 1%nat = Some ("0402", conf_0402) ∧
    "terminal" ∈ geometric_fields ∧
    field_changed "terminal" conf_0402 (<["terminal" := VNum 0.300001]> conf_0402) ∧
    target "out.pretty" "0402" ∉ w2.
Proof.
  split.
  { eexists. split; [by vm_compute|]. split; [by vm_compute|].
    split; by vm_compute. }
  destruct registry_changed_runs as [[[r2 files2] w2] E].
  destruct (main print4 Some (λ _, 1446654321%Q) "out.pretty" config ∅)
    as [[[r1 files1] w1]|] eqn:E1; [|discriminate E].
  simpl in E. exists r1, files1, w1, r2, files2, w2.
  split; [reflexivity|]. split; [exact E|]. split; [reflexivity|].
  split; [apply (bool_decide_unpack _); vm_compute; exact I|].
  split.
  { exists (VNum 0.30), (VNum 0.300001).
    split; [vm_compute; reflexivity|]. split; vm_compute; reflexivity. }
  assert (Hnd2 : NoDup (target "out.pretty" <$>
            (<[1%nat := ("0402", <["terminal" := VNum 0.300001]> conf_0402)]>
               config).*1))
    by (apply (bool_decide_unpack _); vm_compute; exact I).
  destruct (main_second_run print4 Some print4 (λ l, eq_refl) print4_head
              _ _ _ _ _ _ _ _ _ _ _ _ "0402" conf_0402
              (<["terminal" := VNum 0.300001]> conf_0402)
              registry_paths_distinct Hnd2 registry_names_nonempty E1 E
              ltac:(right; left) ltac:(right; left) 0%Q 0%Q)
    as (fp1 & fp2 & b & Hfp1 & Hfp2 & Hb & Hiff).
  assert (Hcmp :
    (fp1 ← footprint print4 0%Q (<["name" := VStr "0402"]> conf_0402);
     fp2 ← footprint print4 0%Q
             (<["name" := VStr "0402"]> (<["terminal" := VNum 0.300001]> conf_0402));
     identical Some fp2 fp1) = Some true) by (vm_compute; reflexivity).
  rewrite Hfp1 in Hcmp. simpl in Hcmp. rewrite Hfp2 in Hcmp. simpl in Hcmp.
  rewrite Hb in Hcmp. injection Hcmp as ->.
  intros Hin. by apply Hiff in Hin.
Qed.

Lemma main_names_registry_witness :
  ∃ r files' w,
    main (text := sexp) id Some (λ _, 1446654321%Q) "out.pretty" config ∅
    = Some (r, files', w) ∧
    length r = length config ∧
    ∃ conf',
      r !! 1%nat = Some ("0402", conf') ∧
      conf' !! "name" = Some (VStr "0402") ∧
      ∀ k, k ≠ "name" → conf' !! k = conf_0402 !! k.
Proof.
  destruct registry_first_run as [[[r files'] w] E].
  exists r, files', w. split; [exact E|].
  destruct (main_names_registry id Some _ _ _ _ _ _ _ E) as [Hlen Hall].
  split; [exact Hlen|]. exact (Hall 1%nat "0402" conf_0402 eq_refl).
Defined.

(** C9 (as stated) fails: after a run over the registry the entry of "0402"
    holds a "name" field that the configuration table does not have. *)
Lemma registry_entry_gains_name :
  ∃ r files' w conf',
    main (text := sexp) id Some (λ _, 1446654321%Q) "out.pretty" config ∅
    = Some (r, files', w) ∧
    config !! 1%nat = Some ("0402", conf_0402) ∧
    r !! 1%nat = Some ("0402", conf') ∧
    conf_0402 !! "name" = None ∧
    conf' !! "name" = Some (VStr "0402") ∧
    conf' ≠ conf_0402.
Proof.
  destruct registry_first_run as [[[r files'] w] E].
  exists r, files', w, (<["name" := VStr "0402"]> conf_0402).
  split; [exact E|]. split; [reflexivity|].
  unfold main in E. apply main_loop_registry in E as ->.
  split; [reflexivity|]. split; [reflexivity|]. split; [reflexivity|].
  intros Heq. apply (f_equal (λ m, m !! "name")) in Heq. discriminate Heq.
Qed.


(** * Further properties of the geometry engine *)

Section EngineExtras.

Local Open Scope Q_scope.
Implicit Types conf : gmap string value.

(** The fabrication drawing is the outline of the body followed by the two
    terminal marks, vertical over the height of the body at
    x = -w/2 + t and x = w/2 - t.  The marks mirror each other, and for a
    terminal width between 0 and half the chip width they lie within the
    body, the left one at or left of the right one. *)
Theorem fab_marks_within_body conf w h t :
  conf !! "chip_shape" = Some (VPair w h) →
  conf !! "terminal" = Some (VNum t) →
  0 <= t → t <= w / 2 →
  ∃ xl xr,
    fab conf
    = Some ((draw_square w h (0, 0) "F.Fab" fab_width).2 ++
            [fp_line (xl, - h / 2) (xl, h / 2) "F.Fab" fab_width;
             fp_line (xr, - h / 2) (xr, h / 2) "F.Fab" fab_width])%list ∧
    xl == - (w / 2) + t ∧ xr == w / 2 - t ∧
    xl == - xr ∧ - (w / 2) <= xl ∧ xl <= xr ∧ xr <= w / 2.
Proof.
  intros Hc Ht H0 Hw.
  exists (0 - w / 2 + t), (0 + w / 2 - t).
  split; [by apply fab_value|].
  rewrite !Qhalf in *. repeat split; lra.
Qed.

Lemma fab_marks_within_body_witness :
  ∃ xl xr,
    fab conf_0603
    = Some ((draw_square 1.60 0.80 (0, 0) "F.Fab" fab_width).2 ++
            [fp_line (xl, - 0.80 / 2) (xl, 0.80 / 2) "F.Fab" fab_width;
             fp_line (xr, - 0.80 / 2) (xr, 0.80 / 2) "F.Fab" fab_width])%list ∧
    xl == - (1.60 / 2) + 0.35 ∧ xr == 1.60 / 2 - 0.35 ∧
    xl == - xr ∧ - (1.60 / 2) <= xl ∧ xl <= xr ∧ xr <= 1.60 / 2.
Proof.
  apply (fab_marks_within_body conf_0603 1.60 0.80 0.35);
    [reflexivity|reflexivity|discriminate|discriminate].
Defined.

End EngineExtras.

(** * Further properties of the assembler and of the filter *)

Section AssemblerExtras.

Local Open Scope Q_scope.
Implicit Types conf : gmap string value.

(** Whether generation succeeds does not depend on the clock. *)
Lemma footprint_sexp_any_time now1 now2 conf :
  is_Some (footprint_sexp now1 conf) → is_Some (footprint_sexp now2 conf).
Proof.
  rewrite !footprint_sexp_unfold. intros [d H].
  destruct (conf !! "name") as [name|]; [|done]. simpl in *.
  destruct (refs conf) as [r|]; [|done]. simpl in *.
  destruct (fab conf) as [f|]; [|done]. simpl in *.
  destruct (silk conf) as [s|]; [|done]. simpl in *.
  destruct (ctyd conf) as [c|]; [|done]. simpl in *.
  destruct (pads conf) as [q|]; [|done]. by eexists.
Qed.

(** With the fields of the geometry present the dispatcher returns, whatever
    the "silk" field holds: nothing, three segments or four. *)
Lemma silk_returns conf p pw ph cw ch :
  conf !! "pitch" = Some (VNum p) →
  conf !! "pad_shape" = Some (VPair pw ph) →
  conf !! "chip_shape" = Some (VPair cw ch) →
  ∃ s, silk conf = Some s ∧
       (length s = 0 ∨ length s = 3 ∨ length s = 4)%nat.
Proof.
  intros Hp Hs Hc. unfold silk, internal_silk, triangle_silk, external_silk,
    pin1_silk. rewrite Hp, Hs, Hc.
  repeat case_match; eexists; (split; [reflexivity|]); cbn; auto.
Qed.

(** Generation raises unless the name is present and the four geometric
    fields hold values of the right shape.  The "silk" field never makes it
    raise: with the pitch and the two shapes present the dispatcher returns,
    whatever the field holds. *)
Theorem footprint_needs_fields now conf :
  (is_Some (footprint_sexp now conf) →
   is_Some (conf !! "name") ∧
   (∃ pw ph, conf !! "pad_shape" = Some (VPair pw ph)) ∧
   (∃ p, conf !! "pitch" = Some (VNum p)) ∧
   (∃ cw ch, conf !! "chip_shape" = Some (VPair cw ch)) ∧
   (∃ t, conf !! "terminal" = Some (VNum t))) ∧
  ((∃ p, conf !! "pitch" = Some (VNum p)) →
   (∃ pw ph, conf !! "pad_shape" = Some (VPair pw ph)) →
   (∃ cw ch, conf !! "chip_shape" = Some (VPair cw ch)) →
   ∀ v, is_Some (silk (<["silk" := v]> conf)) ∧
        is_Some (silk (delete "silk" conf))).
Proof.
  split.
  - rewrite footprint_sexp_unfold. intros [d H].
    destruct (conf !! "name") as [name|] eqn:Hn; [|done]. simpl in H.
    destruct (refs conf) as [r|]; [|done]. simpl in H.
    destruct (fab conf) as [f|] eqn:Hf; [|done]. simpl in H.
    destruct (silk conf) as [s|]; [|done]. simpl in H.
    destruct (ctyd conf) as [c|]; [|done]. simpl in H.
    destruct (pads conf) as [q|] eqn:Hq; [|done].
    destruct (pads_fields _ _ Hq) as (p & pw & ph & Hp & Hs).
    destruct (fab_fields _ _ Hf) as (cw & ch & t & Hc & Ht).
    split; [by eexists|]. split; [by exists pw, ph|]. split; [by exists p|].
    split; [by exists cw, ch|]. by exists t.
  - intros [p Hp] (pw & ph & Hs) (cw & ch & Hc) v. split.
    + destruct (silk_returns (<["silk" := v]> conf) p pw ph cw ch)
        as (s & -> & _); [by rewrite lookup_insert_ne..|by eexists].
    + destruct (silk_returns (delete "silk" conf) p pw ph cw ch)
        as (s & -> & _); [by rewrite lookup_delete_ne..|by eexists].
Qed.

(** A generated document has 18 elements besides those of the silkscreen,
    which are none, three or four: it never has more than 22. *)
Theorem footprint_element_count now conf l :
  footprint_sexp now conf = Some (SList l) →
  ∃ s, silk conf = Some s ∧
       length l = (18 + length s)%nat ∧
       (length s = 0 ∨ length s = 3 ∨ length s = 4)%nat.
Proof.
  rewrite footprint_sexp_unfold. intros H.
  destruct (conf !! "name") as [name|]; [|done]. simpl in H.
  destruct (refs conf) as [r|] eqn:Hr; [|done]. simpl in H.
  destruct (fab conf) as [f|] eqn:Hf; [|done]. simpl in H.
  destruct (silk conf) as [s|] eqn:Hs; [|done]. simpl in H.
  destruct (ctyd conf) as [c|] eqn:Hc; [|done]. simpl in H.
  destruct (pads conf) as [q|] eqn:Hq; [|done]. simpl in H.
  injection H as <-.
  destruct (pads_fields _ _ Hq) as (p & pw & ph & Hp & Hps).
  destruct (fab_fields _ _ Hf) as (cw & ch & t & Hcs & Ht).
  destruct (silk_returns conf p pw ph cw ch Hp Hps Hcs) as (s' & Hs' & Hlen).
  rewrite Hs in Hs'. injection Hs' as <-.
  exists s. split; [done|]. split; [|done].
  rewrite (fab_value _ _ _ _ Hcs Ht) in Hf. injection Hf as <-.
  rewrite (pads_value _ _ _ _ Hp Hps) in Hq. injection Hq as <-.
  cbn [length]. rewrite !length_app, (refs_length _ _ Hr), (ctyd_length _ _ Hc).
  cbn [length draw_square snd]. lia.
Qed.

Lemma footprint_element_count_witness :
  ∃ l s, footprint_sexp 1446654321 (<["name" := VStr "0603-LED"]> conf_0603_LED)
         = Some (SList l) ∧
         silk (<["name" := VStr "0603-LED"]> conf_0603_LED) = Some s ∧
         length l = (18 + length s)%nat ∧
         (length s = 0 ∨ length s = 3 ∨ length s = 4)%nat.
Proof.
  destruct (footprint_sexp 1446654321 (<["name" := VStr "0603-LED"]> conf_0603_LED))
    as [[| | |l]|] eqn:E; try discriminate E.
  exists l. destruct (footprint_element_count _ _ _ E) as (s & Hs).
  by exists s.
Defined.

Lemma engine_ignores_silk conf v :
  refs (<["silk" := v]> conf) = refs conf ∧
  fab (<["silk" := v]> conf) = fab conf ∧
  ctyd (<["silk" := v]> conf) = ctyd conf ∧
  pads (<["silk" := v]> conf) = pads conf.
Proof.
  unfold refs, fab, ctyd, pads. by rewrite !lookup_insert_ne.
Qed.

(** The "external" and "pin1" variants, an explicit None and every value
    that names no variant draw nothing: two specifications that differ only
    in such a "silk" value generate the same document. *)
Theorem silk_blank_variants_same_document now conf v w :
  str_eqb v "internal" = false → str_eqb v "triangle" = false →
  str_eqb w "internal" = false → str_eqb w "triangle" = false →
  silk (<["silk" := v]> conf) = Some [] ∧
  footprint_sexp now (<["silk" := v]> conf)
  = footprint_sexp now (<["silk" := w]> conf).
Proof.
  intros Hv1 Hv2 Hw1 Hw2.
  assert (Hblank : ∀ u, str_eqb u "internal" = false →
                        str_eqb u "triangle" = false →
                        silk (<["silk" := u]> conf) = Some []).
  { intros u Hu1 Hu2. unfold silk. rewrite lookup_insert_eq. simpl.
    rewrite Hu1, Hu2. by repeat case_match. }
  split; [by apply Hblank|].
  rewrite !footprint_sexp_unfold, !Hblank by done.
  destruct (engine_ignores_silk conf v) as (-> & -> & -> & ->).
  destruct (engine_ignores_silk conf w) as (-> & -> & -> & ->).
  by rewrite !lookup_insert_ne.
Qed.

Lemma silk_blank_variants_same_document_witness :
  silk (<["silk" := VStr "external"]> conf_0603) = Some [] ∧
  footprint_sexp 1446654321 (<["silk" := VStr "external"]> conf_0603)
  = footprint_sexp 1446654321 (<["silk" := VNone]> conf_0603).
Proof.
  apply (silk_blank_variants_same_document 1446654321 conf_0603
           (VStr "external") VNone); reflexivity.
Defined.

(** The filter [[n for n in l if n[0] != "tedit"]] selects: its result is
    a sublist of its input, holds exactly the elements of the input whose
    first item is not "tedit", and passes the filter again unchanged. *)
Theorem drop_tedit_selects l l' :
  drop_tedit l = Some l' →
  sublist l' l ∧
  (∀ n, n ∈ l' ↔ n ∈ l ∧ kept n) ∧
  drop_tedit l' = Some l'.
Proof.
  revert l'. induction l as [|x l IH]; intros l' H.
  - injection H as <-. split; [done|]. split; [|done].
    intros n. split; [by intros ?%elem_of_nil|by intros [?%elem_of_nil _]].
  - simpl in H. destruct (py_first x) as [h|] eqn:Hh; [|done]. simpl in H.
    destruct (drop_tedit l) as [rest|]; [|done]. simpl in H.
    destruct (IH rest eq_refl) as (Hsub & Hmem & Hidem).
    destruct (sexp_eqb h (SStr "tedit")) eqn:Hb; injection H as <-.
    + split; [by apply sublist_cons|]. split; [|done].
      intros n. rewrite Hmem, elem_of_cons. split.
      { intros [Hin Hk]. split; [by right|done]. }
      intros [[->|Hin] Hk]; [|done].
      destruct Hk as (h' & Hh' & Hne). congruence.
    + split; [by apply sublist_skip|]. split.
      * intros n. rewrite !elem_of_cons, Hmem. split.
        -- intros [->|[Hin Hk]]; [|by auto].
           split; [by left|]. by exists h.
        -- intros [[->|Hin] Hk]; [by left|by right].
      * simpl. rewrite Hh. simpl. rewrite Hidem. simpl. by rewrite Hb.
Qed.

Lemma drop_tedit_selects_witness :
  sublist [SStr "module"; SList [SStr "layer"; SStr "F.Cu"]]
          [SStr "module"; SList [SStr "tedit"; SStr "5637E2F1"];
           SList [SStr "layer"; SStr "F.Cu"]] ∧
  (∀ n, n ∈ [SStr "module"; SList [SStr "layer"; SStr "F.Cu"]] ↔
        n ∈ [SStr "module"; SList [SStr "tedit"; SStr "5637E2F1"];
             SList [SStr "layer"; SStr "F.Cu"]] ∧ kept n) ∧
  drop_tedit [SStr "module"; SList [SStr "layer"; SStr "F.Cu"]]
  = Some [SStr "module"; SList [SStr "layer"; SStr "F.Cu"]].
Proof.
  apply (drop_tedit_selects
           [SStr "module"; SList [SStr "tedit"; SStr "5637E2F1"];
            SList [SStr "layer"; SStr "F.Cu"]]
           [SStr "module"; SList [SStr "layer"; SStr "F.Cu"]]).
  reflexivity.
Defined.

(** The filter raises exactly when some element has no first item: a
    number, None, an empty string or an empty list. *)
Theorem drop_tedit_raises l :
  drop_tedit l = None ↔
  ∃ n, n ∈ l ∧ (n = SNone ∨ (∃ q, n = SNum q) ∨ n = SStr "" ∨ n = SList []).
Proof.
  assert (Hfirst : ∀ n, py_first n = None ↔
            n = SNone ∨ (∃ q, n = SNum q) ∨ n = SStr "" ∨ n = SList []).
  { intros [|[|c s]|q|[|x m]]; simpl; split; try done; eauto;
      intros [H|[[q' H]|[H|H]]]; discriminate H. }
  induction l as [|x l IH]; simpl.
  - split; [done|]. by intros (n & ?%elem_of_nil & _).
  - destruct (py_first x) as [h|] eqn:Hh; simpl.
    + destruct (drop_tedit l) as [rest|]; simpl.
      * split; [done|]. intros (n & Hin & Hn).
        apply elem_of_cons in Hin as [->|Hin].
        -- apply Hfirst in Hn. congruence.
        -- assert (Some rest = None) as [=]. apply IH. by exists n.
      * split; [|done]. intros _.
        destruct (proj1 IH eq_refl) as (n & Hin & Hn).
        exists n. split; [by right|done].
    + split; [|done]. intros _. exists x. split; [by left|by apply Hfirst].
Qed.

End AssemblerExtras.

(** * Further properties of the writer *)

Section WriterExtras.

Context {text : Type}.
Variable sexp_generate : sexp → text.
Variable sexp_parse : text → option sexp.

Implicit Types (conf : gmap string value) (files : gmap string text).
Implicit Types items : list (string * gmap string value).

(** A run leaves alone every path that is not the file of a package, writes
    files of packages only, and removes no file. *)
Theorem main_frame clock p items files r files' w :
  main sexp_generate sexp_parse clock p items files = Some (r, files', w) →
  (∀ path, path ∉ target p <$> items.*1 → files' !! path = files !! path) ∧
  (∀ path, path ∈ w → path ∈ target p <$> items.*1) ∧
  (∀ path, is_Some (files !! path) → is_Some (files' !! path)).
Proof.
  unfold main. intros H. split; [|split].
  - intros path. by eapply main_loop_other_files.
  - intros path. by eapply main_loop_written.
  - revert H. generalize 0%nat. revert files r files' w.
    induction items as [|[name conf] rest IH]; intros files r files' w i H path Hs.
    + by injection H as <- <- <-.
    + apply main_loop_cons_inv in H
        as (fp & skip & rest' & w' & _ & _ & Hrest & _ & _).
      apply (IH _ _ _ _ _ Hrest). destruct skip; [done|].
      destruct (decide (target p name = path)) as [->|Hne].
      * rewrite lookup_insert_eq. by eexists.
      * by rewrite lookup_insert_ne.
Qed.

(** A file that the run does not report as written keeps its contents, the
    tedit element included; a file it reports holds a footprint generated
    from an entry of that path, its "name" set. *)
Theorem main_written_exactly clock p items files r files' w :
  main sexp_generate sexp_parse clock p items files = Some (r, files', w) →
  (∀ path, path ∉ w → files' !! path = files !! path) ∧
  (∀ path, path ∈ w →
     ∃ i name conf,
       items !! i = Some (name, conf) ∧ path = target p name ∧
       files' !! path
       = footprint sexp_generate (clock i) (<["name" := VStr name]> conf)).
Proof.
  unfold main.
  enough (Hgen : ∀ k files r files' w,
    main_loop sexp_generate sexp_parse clock k p items files = Some (r, files', w) →
    (∀ path, path ∉ w → files' !! path = files !! path) ∧
    (∀ path, path ∈ w →
       ∃ i name conf,
         items !! i = Some (name, conf) ∧ path = target p name ∧
         files' !! path
         = footprint sexp_generate (clock (k + i)) (<["name" := VStr name]> conf))).
  { intros H. exact (Hgen 0%nat _ _ _ _ H). }
  clear files r files' w. induction items as [|[name conf] rest IH]; intros k files r files' w H.
  - injection H as <- <- <-. split; [done|]. by intros path ?%elem_of_nil.
  - apply main_loop_cons_inv in H
      as (fp & skip & rest' & w' & Hfp & _ & Hrest & _ & ->).
    destruct (IH _ _ _ _ _ Hrest) as [Hkeep Hnew]. split.
    + intros path Hpath. destruct skip; [by apply Hkeep|].
      apply not_elem_of_cons in Hpath as [Hne Hpath].
      rewrite (Hkeep _ Hpath). by rewrite lookup_insert_ne.
    + intros path Hpath.
      destruct (decide (path ∈ w')) as [Hin|Hnin].
      * destruct (Hnew _ Hin) as (i & name' & conf' & Hi & -> & Hf).
        exists (S i), name', conf'. split; [done|]. split; [done|].
        by rewrite Nat.add_succ_r.
      * destruct skip; [done|].
        apply elem_of_cons in Hpath as [->|Hin]; [|done].
        exists 0%nat, name, conf. split; [done|]. split; [done|].
        rewrite (Hkeep _ Hnin), lookup_insert_eq, Nat.add_0_r. done.
Qed.

(** A specification that lacks a geometric field, or holds a value of the
    wrong shape there, raises in its turn: the run does not complete. *)
Theorem main_raises_on_bad_specification clock p items files name conf :
  (name, conf) ∈ items →
  footprint_sexp 0 (<["name" := VStr name]> conf) = None →
  main sexp_generate sexp_parse clock p items files = None.
Proof.
  unfold main. generalize 0%nat. revert files.
  induction items as [|[name0 conf0] rest IH]; intros files i Hin Hbad.
  - by apply elem_of_nil in Hin.
  - cbn [main_loop]. apply elem_of_cons in Hin as [[= <- <-]|Hin].
    + assert (Hnow : footprint_sexp (clock i) (<["name" := VStr name]> conf) = None).
      { destruct (footprint_sexp (clock i) _) as [d|] eqn:Hd; [|done].
        assert (Hs : is_Some (footprint_sexp 0 (<["name" := VStr name]> conf))).
        { apply (footprint_sexp_any_time (clock i)). by eexists. }
        rewrite Hbad in Hs. by destruct Hs. }
      unfold footprint. by rewrite Hnow.
    + destruct (footprint _ _ _) as [fp|]; [|done]. simpl.
      destruct (match files !! target p name0 with
                | Some old => identical sexp_parse fp old
                | None => Some false
                end) as [skip|]; [|done].
      simpl. by rewrite IH.
Qed.

(** An existing file of a package that does not parse, or whose document
    the filter cannot read, makes the run raise. *)
Theorem main_raises_on_unreadable_file clock p items files name conf old :
  NoDup (target p <$> items.*1) →
  (name, conf) ∈ items →
  files !! target p name = Some old →
  sexp_parse old ≫= strip_tedit = None →
  main sexp_generate sexp_parse clock p items files = None.
Proof.
  unfold main. generalize 0%nat. revert files.
  induction items as [|[name0 conf0] rest IH]; intros files i Hnd Hin Hold Hbad.
  - by apply elem_of_nil in Hin.
  - cbn [main_loop]. cbn in Hnd. apply NoDup_cons in Hnd as [Hfresh Hnd].
    destruct (footprint _ _ _) as [fp|]; [|done]. simpl.
    apply elem_of_cons in Hin as [[= <- <-]|Hin].
    + rewrite Hold. unfold identical. by rewrite Hbad.
    + assert (Hne : target p name0 ≠ target p name).
      { intros Heq. apply Hfresh. rewrite Heq.
        apply list_elem_of_fmap. exists name. split; [done|].
        apply list_elem_of_fmap. by exists (name, conf). }
      destruct (match files !! target p name0 with
                | Some old => identical sexp_parse fp old
                | None => Some false
                end) as [skip|]; [|done].
      simpl. rewrite IH; [done|done|done| |done].
      destruct skip; [done|]. by rewrite lookup_insert_ne.
Qed.

(** The comparison of the writer is symmetric and transitive on texts, and
    it raises exactly when one of the two texts cannot be read. *)
Theorem identical_equivalence a b c :
  identical sexp_parse a b = identical sexp_parse b a ∧
  (identical sexp_parse a b = Some true →
   identical sexp_parse b c = Some true →
   identical sexp_parse a c = Some true) ∧
  (identical sexp_parse a b = None ↔
   sexp_parse a ≫= strip_tedit = None ∨ sexp_parse b ≫= strip_tedit = None).
Proof.
  unfold identical.
  destruct (sexp_parse a ≫= strip_tedit) as [la|];
    destruct (sexp_parse b ≫= strip_tedit) as [lb|];
    destruct (sexp_parse c ≫= strip_tedit) as [lc|]; simpl;
    (split; [try by rewrite list_sexp_eqb_sym|split]); try done;
    try (intros [= H1] [= H2]; f_equal; by eapply list_sexp_eqb_trans);
    try (split; [done|by intros [?|?]]); try (split; auto; done).
Qed.


End WriterExtras.

(** The registry in an empty directory, with documents kept as they are. *)
Lemma main_frame_witness :
  ∃ r files' w,
    main (text := sexp) id Some (λ _, 1446654321%Q) "out.pretty" config ∅
    = Some (r, files', w) ∧
    (∀ path, path ∉ target "out.pretty" <$> config.*1 →
             files' !! path = (∅ : gmap string sexp) !! path) ∧
    (∀ path, path ∈ w → path ∈ target "out.pretty" <$> config.*1) ∧
    (∀ path, is_Some ((∅ : gmap string sexp) !! path) → is_Some (files' !! path)).
Proof.
  destruct registry_first_run as [[[r files'] w] E].
  exists r, files', w. split; [exact E|].
  exact (main_frame id Some _ _ _ _ _ _ _ E).
Defined.

Lemma main_written_exactly_witness :
  ∃ r files' w,
    main (text := sexp) id Some (λ _, 1446654321%Q) "out.pretty" config ∅
    = Some (r, files', w) ∧
    (∀ path, path ∉ w → files' !! path = (∅ : gmap string sexp) !! path) ∧
    (∀ path, path ∈ w →
       ∃ i name conf,
         config !! i = Some (name, conf) ∧ path = target "out.pretty" name ∧
         files' !! path
         = footprint id 1446654321%Q (<["name" := VStr name]> conf)).
Proof.
  destruct registry_first_run as [[[r files'] w] E].
  exists r, files', w. split; [exact E|].
  exact (main_written_exactly id Some _ _ _ _ _ _ _ E).
Defined.

(** A package without its "terminal" field. *)
Lemma main_raises_on_bad_specification_witness :
  main (text := sexp) id Some (λ _, 1446654321%Q) "out.pretty"
    [("0603", conf_0603); ("0805", delete "terminal" conf_0805)] ∅ = None.
Proof.
  apply (main_raises_on_bad_specification id Some _ _ _ _
           "0805" (delete "terminal" conf_0805)).
  - right. left.
  - reflexivity.
Defined.

(** A file that holds a bare number where a document is expected. *)
Lemma main_raises_on_unreadable_file_witness :
  main (text := sexp) id Some (λ _, 1446654321%Q) "out.pretty"
    [("0603", conf_0603); ("0805", conf_0805)]
    {[ target "out.pretty" "0805" := SNum 1 ]} = None.
Proof.
  apply (main_raises_on_unreadable_file id Some _ _ _ _ "0805" conf_0805 (SNum 1)).
  - apply (bool_decide_unpack _). vm_compute. exact I.
  - right. left.
  - apply lookup_singleton_eq.
  - reflexivity.
Defined.


(** * Paths and time stamps *)

Section PathFacts.

Lemma list_ascii_of_string_app (a b : string) :
  list_ascii_of_string (a ++ b)
  = (list_ascii_of_string a ++ list_ascii_of_string b)%list.
Proof. induction a as [|c a IH]; simpl; [done|]. by rewrite IH. Qed.

Lemma string_app_inv_tail (a b c : string) : a ++ c = b ++ c → a = b.
Proof.
  intros H. apply (f_equal list_ascii_of_string) in H.
  rewrite !list_ascii_of_string_app in H. apply app_inv_tail in H.
  apply (f_equal string_of_list_ascii) in H.
  by rewrite !string_of_list_ascii_of_string in H.
Qed.

(** [os.path.join] on a second component that is not absolute. *)
Lemma path_join_relative (a b : string) :
  (∀ s, b ≠ String "/" s) →
  path_join a b
  = if bool_decide (a = "") then b
    else if bool_decide (last (list_ascii_of_string a) = Some "/"%char)
         then a ++ b else a ++ "/" ++ b.
Proof.
  intros H. destruct b as [|c b]; [reflexivity|].
  destruct c as [[] [] [] [] [] [] [] []]; try reflexivity.
  exfalso. by eapply H.
Qed.

Lemma target_relative_inj (p a b : string) :
  (∀ s, a ≠ String "/" s) → (∀ s, b ≠ String "/" s) →
  target p a = target p b → a = b.
Proof.
  intros Ha Hb. unfold target.
  assert (Hext : ∀ n : string, (∀ s, n ≠ String "/" s) →
                      ∀ s, n ++ ".kicad_mod" ≠ String "/" s).
  { intros [|c n] Hn s; [discriminate|]. simpl. intros [= -> _]. by eapply Hn. }
  rewrite !path_join_relative by auto.
  intros H. apply (string_app_inv_tail _ _ ".kicad_mod").
  repeat case_bool_decide; [done| |].
  - by apply (inj (String.app p)) in H.
  - apply (inj (String.app p)) in H. by apply (inj (String.app "/")) in H.
Qed.

(** Packages of distinct names, none of which begins with "/", have distinct
    files, whatever the directory. *)
Theorem target_distinct (p : string) (names : list string) :
  (∀ n s, n ∈ names → n ≠ String "/" s) →
  NoDup names → NoDup (target p <$> names).
Proof.
  intros Hrel. apply NoDup_fmap_2_strong.
  intros a b Ha Hb. apply target_relative_inj; intros s; by apply Hrel.
Qed.

Lemma target_distinct_witness : NoDup (target "lib/agg.pretty/" <$> config.*1).
Proof.
  apply target_distinct.
  - intros n s Hin. cbn in Hin.
    repeat (apply elem_of_cons in Hin as [->|Hin]; [discriminate|]).
    by apply elem_of_nil in Hin.
  - apply (bool_decide_unpack _). vm_compute. exact I.
Defined.

End PathFacts.

Section TimeStampFacts.

Lemma hex_digit_value_digit (m : Z) :
  (0 <= m < 16)%Z → hex_digit_value (hex_digit m) = Some m.
Proof.
  intros Hm.
  assert (H : (m = 0 ∨ m = 1 ∨ m = 2 ∨ m = 3 ∨ m = 4 ∨ m = 5 ∨ m = 6 ∨ m = 7 ∨
               m = 8 ∨ m = 9 ∨ m = 10 ∨ m = 11 ∨ m = 12 ∨ m = 13 ∨ m = 14 ∨
               m = 15)%Z) by lia.
  repeat (destruct H as [->|H]; [reflexivity|]). by subst m.
Qed.

Lemma hex_value_from_digits (fuel : nat) :
  ∀ n rest acc, (0 <= n < 2 ^ Z.of_nat fuel)%Z →
    ∃ k, (0 <= k)%Z ∧
      hex_value_from acc (hex_digits fuel n rest)
      = hex_value_from (acc * 16 ^ k + n) rest.
Proof.
  induction fuel as [|fuel IH]; intros n rest acc Hn.
  - exists 0%Z. split; [lia|]. simpl in *. f_equal. lia.
  - cbn [hex_digits].
    assert (Hmod : (0 <= n mod 16 < 16)%Z) by (apply Z.mod_pos_bound; lia).
    assert (Hdm : (n = 16 * (n / 16) + n mod 16)%Z) by (apply Z.div_mod; lia).
    destruct (Z.eqb_spec (n / 16) 0) as [Hz|Hnz].
    + exists 1%Z. split; [lia|]. cbn [hex_value_from].
      rewrite hex_digit_value_digit by done. simpl. f_equal. lia.
    + assert (Hq : (0 <= n / 16 < 2 ^ Z.of_nat fuel)%Z).
      { split; [apply Z.div_pos; lia|].
        apply Z.div_lt_upper_bound; [lia|].
        rewrite Nat2Z.inj_succ, Z.pow_succ_r in Hn by lia. lia. }
      destruct (IH (n / 16)%Z (String (hex_digit (n mod 16)) rest) acc Hq)
        as (k & Hk & ->).
      exists (k + 1)%Z. split; [lia|]. cbn [hex_value_from].
      rewrite hex_digit_value_digit by done. simpl. f_equal.
      rewrite Z.pow_add_r by lia. lia.
Qed.

Lemma hex_digits_nonempty (fuel : nat) :
  ∀ n acc, acc ≠ "" → hex_digits fuel n acc ≠ "".
Proof.
  induction fuel as [|fuel IH]; intros n acc Hacc; [done|].
  cbn [hex_digits]. destruct (_ =? 0)%Z; [discriminate|]. by apply IH.
Qed.

Lemma format_X_nonempty (n : Z) : format_X n ≠ "".
Proof.
  unfold format_X. destruct (n <? 0)%Z; [discriminate|].
  cbn [hex_digits]. destruct (_ =? 0)%Z; [discriminate|].
  by apply hex_digits_nonempty.
Qed.

(** The tedit stamp: for a clock that is not negative, the numeral that
    [format(int(time.time()), 'X')] produces reads back, as upper-case
    hexadecimal, as the whole seconds of the clock. *)
Theorem tedit_whole_seconds (now : Q) :
  (0 <= now)%Q →
  ∃ n : Z,
    hex_value (format_X (py_int now)) = Some n ∧
    (inject_Z n <= now)%Q ∧ (now < inject_Z n + 1)%Q.
Proof.
  intros Hnow. exists (Qfloor now).
  assert (Hint : py_int now = Qfloor now).
  { destruct now as [a b]. unfold py_int, Qfloor. simpl.
    apply Z.quot_div_nonneg; [|lia].
    unfold Qle in Hnow. simpl in Hnow. lia. }
  assert (Hpos : (0 <= Qfloor now)%Z).
  { rewrite <- Hint. destruct now as [a b]. unfold py_int. simpl.
    apply Z.quot_pos; [|lia]. unfold Qle in Hnow. simpl in Hnow. lia. }
  split; [|split].
  - rewrite Hint. unfold hex_value.
    pose proof (format_X_nonempty (Qfloor now)) as Hne.
    destruct (format_X (Qfloor now)) as [|c s] eqn:E; [done|]. rewrite <- E.
    unfold format_X. destruct (Z.ltb_spec (Qfloor now) 0) as [?|_]; [lia|].
    rewrite Z.abs_eq by done.
    destruct (hex_value_from_digits (S (Z.to_nat (Z.log2 (Qfloor now))))
                (Qfloor now) "" 0%Z) as (k & _ & ->).
    + split; [done|]. rewrite Nat2Z.inj_succ, Z2Nat.id by apply Z.log2_nonneg.
      destruct (decide (Qfloor now = 0%Z)) as [->|?]; [reflexivity|].
      apply Z.log2_spec. lia.
    + simpl. f_equal; lia.
  - apply Qfloor_le.
  - rewrite <- (inject_Z_plus _ 1). apply Qlt_floor.
Qed.

Lemma tedit_whole_seconds_witness :
  ∃ n : Z,
    hex_value (format_X (py_int 1446654321.75)) = Some n ∧
    (inject_Z n <= 1446654321.75)%Q ∧ (1446654321.75 < inject_Z n + 1)%Q.
Proof. apply tedit_whole_seconds. discriminate. Defined.

End TimeStampFacts.
